(** * MusicComposer: score model, bar normalisation and waveform synthesis

    A shallow embedding of [MusicComposer.py], in two readings of its
    numbers.

    The exact reading (the definitions at top level).  Python integers are
    [Z]; floats are exact numbers, rationals ([Q]) where the program only
    adds, subtracts, multiplies, divides and compares them, and reals ([R])
    from the point where it calls [math.pow] and [math.sin]; the fields of
    a note hold numbers, the values of the members of [Tone], [Sign] and
    [Dynamic].  It carries the statements that do not depend on the value
    of a float: the branch of [Bar.__init__] that raises, the order and the
    shape of the output of [convertToWaveData], the fade regions; and
    worked examples on inputs where no operation rounds.

    The binary64 reading (module [F64]).  Floats are IEEE 754 binary64
    values and every operation rounds as Python's does; a field of a note
    holds a Python value, which can be a member of an enumeration, and a
    member is not a number; [float()], [int()], the mixed operations,
    [chr] and [xrange] raise where Python's do; [math.pow] and [math.sin]
    are a parameter.  It carries every statement about the value of a
    frequency, a duration, a frame count or a sample.

    Exceptions.  Code that can raise runs in the [result] monad. *)

From Stdlib Require Import ZArith QArith Qround Qabs String List Bool Lia Psatz.
From Stdlib Require Import Reals Qreals R_Ifp.
From Stdlib Require Import Floats.
Import ListNotations.

(** ** Exceptions and the error monad *)

Inductive exn : Set :=
| AttributeError
| TypeError
| ValueError
| ZeroDivisionError
| OverflowError.

Inductive result (A : Type) : Type :=
| Ok (a : A)
| Raise (e : exn).

Arguments Ok {A} a.
Arguments Raise {A} e.

Definition bind {A B : Type} (m : result A) (k : A -> result B) : result B :=
  match m with
  | Ok a => k a
  | Raise e => Raise e
  end.

Declare Scope py_scope.
Delimit Scope py_scope with py.
Notation "x <- m ;; k" := (bind m (fun x => k))
  (at level 61, m at next level, right associativity) : py_scope.
Open Scope py_scope.

(** ** Comparisons and conversions of Python numbers *)

Definition Qgtb (a b : Q) : bool := negb (Qle_bool a b).
Definition Qltb (a b : Q) : bool := negb (Qle_bool b a).

(** [int(x)] on a float: truncation toward zero. *)
Definition Qtrunc (q : Q) : Z := Z.quot (Qnum q) (Zpos (Qden q)).

(** [a / b] on floats (or a float and an int). *)
Definition float_div (a b : Q) : result Q :=
  if Qeq_bool b 0 then Raise ZeroDivisionError else Ok (a / b).

(** The values a note attribute or a constructor argument can hold. *)
Inductive value : Type :=
| VNone
| VNum (q : Q)
| VMethod.

Definition py_float (v : value) : result Q :=
  match v with
  | VNum q => Ok q
  | _ => Raise TypeError
  end.

Definition py_int (v : value) : result Z :=
  match v with
  | VNum q => Ok (Qtrunc q)
  | _ => Raise TypeError
  end.

(** ** Enumerations *)

Module Tone.
Inductive t : Set := C | D | E | F | G | A | B.
Definition val (x : t) : Q :=
  match x with
  | C => 0 | D => 2 | E => 4 | F => 5 | G => 7 | A => 9 | B => 11
  end.
End Tone.

Module Sign.
Inductive t : Set :=
| DoubleFlat | Flat | HalfFlat | HalfSharp | Sharp | DoubleSharp.
Definition val (x : t) : Q :=
  match x with
  | DoubleFlat => -2
  | Flat => -1
  | HalfFlat => -(1 # 2)
  | HalfSharp => 1 # 2
  | Sharp => 1
  | DoubleSharp => 2
  end.
End Sign.

Module Dynamic.
Inductive t : Set := ppp | pp | p | mp | mf | f | ff | fff.
Definition val (x : t) : Q :=
  match x with
  | ppp => 16 | pp => 33 | p => 49 | mp => 64
  | mf => 80 | f => 96 | ff => 112 | fff => 126
  end.
End Dynamic.

(** ** Pitch *)

Record Pitch : Type := mkPitch {
  pitch_tone : value;
  pitch_octave : value;
  pitch_sign : value
}.

(** [Pitch.__init__(tone, octave, sign=0)]: the three arguments are stored
    as given. *)
Definition Pitch_init (tone_ octave_ sign_ : value) : Pitch :=
  mkPitch tone_ octave_ sign_.

(** ** Note *)

Record Note : Type := mkNote {
  duration : Q;
  tone : value;
  octave : Z;
  sign : Q;
  dynamic : Q
}.

(** [Note.__init__(duration, tone=None, octave=0, sign=0, dynamic=Dynamic.mf)].
    The only conversions are [float(duration)] and [int(octave)]; nothing
    is checked. *)
Definition Note_init (duration_ tone_ octave_ : value) (sign_ dynamic_ : Q)
  : result Note :=
  d <- py_float duration_ ;;
  o <- py_int octave_ ;;
  Ok (mkNote d tone_ o sign_ dynamic_).

(** Attribute lookup on a note.  An instance carries the five attributes
    assigned by [__init__] and the method [frequency]; any other name raises
    [AttributeError]. *)
Definition Note_getattr (n : Note) (name : string) : result value :=
  if String.eqb name "duration" then Ok (VNum (duration n))
  else if String.eqb name "tone" then Ok (tone n)
  else if String.eqb name "octave" then Ok (VNum (inject_Z (octave n)))
  else if String.eqb name "sign" then Ok (VNum (sign n))
  else if String.eqb name "dynamic" then Ok (VNum (dynamic n))
  else if String.eqb name "frequency" then Ok VMethod
  else Raise AttributeError.

(** ** Bar *)

Record Bar : Type := mkBar {
  numberOfBeats : Z;
  divisor : Z;
  notes : list Note
}.

(** The [for note in notes] loop of [Bar.__init__]; [acc] is [self.notes],
    the result pairs it with [notesTotalDuration].  The clipping branch ends
    the loop ([break]). *)
Fixpoint Bar_loop (barTotalDuration : Q) (rest : list Note)
    (acc : list Note) (notesTotalDuration : Q) : result (list Note * Q) :=
  match rest with
  | [] => Ok (acc, notesTotalDuration)
  | note :: rest' =>
      if Qgtb (notesTotalDuration + duration note) barTotalDuration then
        pitch <- Note_getattr note "pitch" ;;
        dyn <- Note_getattr note "dynamic" ;;
        clippedNote <- Note_init
                         (VNum (barTotalDuration - notesTotalDuration))
                         pitch dyn 0 (Dynamic.val Dynamic.mf) ;;
        if Qgtb (duration clippedNote) 0
        then Ok (acc ++ [clippedNote],
                 notesTotalDuration + duration clippedNote)
        else Ok (acc, notesTotalDuration)
      else
        Bar_loop barTotalDuration rest' (acc ++ [note])
                 (notesTotalDuration + duration note)
  end.

Definition Bar_init (notes_ : list Note) (numberOfBeats_ divisor_ : Z)
  : result Bar :=
  barTotalDuration <- float_div (inject_Z numberOfBeats_) (inject_Z divisor_) ;;
  st <- Bar_loop barTotalDuration notes_ [] 0 ;;
  let '(acc, notesTotalDuration) := st in
  if Qltb notesTotalDuration barTotalDuration then
    pad <- Note_init (VNum (barTotalDuration - notesTotalDuration))
                     VNone (VNum 0) 0 (Dynamic.val Dynamic.mf) ;;
    Ok (mkBar numberOfBeats_ divisor_ (acc ++ [pad]))
  else
    Ok (mkBar numberOfBeats_ divisor_ acc).

(** Running total of the durations, summed left to right as the loop
    does, from [tot]. *)
Definition runningTotal (l : list Note) (tot : Q) : Q :=
  fold_left (fun a n => a + duration n) l tot.

Definition notesTotal (l : list Note) : Q := runningTotal l 0.

(** No note of [l] pushes the running total, started at [tot], over the
    bar: the test [notesTotalDuration+note.duration > barTotalDuration]
    fails on every note. *)
Fixpoint fits (barTotalDuration : Q) (l : list Note) (tot : Q) : bool :=
  match l with
  | [] => true
  | n :: l' =>
      Qle_bool (tot + duration n) barTotalDuration
      && fits barTotalDuration l' (tot + duration n)
  end.

(** [Note.frequency]: [None] for a rest, otherwise
    [440*math.pow(2, (octave*12+tone+sign)/12.0)]. *)
Definition frequency (self : Note) : result (option R) :=
  match tone self with
  | VNone => Ok None
  | VNum t =>
      let octaves := ((inject_Z (octave self) * 12 + t + sign self) / 12)%Q in
      Ok (Some (440 * Rpower 2 (Q2R octaves))%R)
  | VMethod => Raise TypeError
  end.

(** ** Composition and waveform synthesis *)

Record Composition : Type := mkComposition {
  bars : list Bar;
  bpm : Q
}.

Definition Composition_init (bars_ : list Bar) (bpm_ : Q) : Composition :=
  mkComposition bars_ bpm_.

Definition TWO_PI : R := (2 * PI)%R.

(** [int(x)] on a real-valued float: truncation toward zero. *)
Definition Rtrunc (r : R) : Z :=
  if Rle_dec 0 r then Int_part r else (- Int_part (- r))%Z.

(** [a / b] with a float [a] and an int [b]. *)
Definition Rdiv_int (a : R) (b : Z) : result R :=
  if (b =? 0)%Z then Raise ZeroDivisionError else Ok (a / IZR b)%R.

(** [chr(i)]: the one-character string of code [i], kept as the code;
    outside [range(256)] it raises [ValueError]. *)
Definition chr (i : Z) : result Z :=
  if ((0 <=? i) && (i <? 256))%Z then Ok i else Raise ValueError.

Definition xrange (n : Z) : list Z := map Z.of_nat (seq 0 (Z.to_nat n)).

Fixpoint mapM {A B : Type} (f : A -> result B) (l : list A)
  : result (list B) :=
  match l with
  | [] => Ok []
  | a :: l' => b <- f a ;; bs <- mapM f l' ;; Ok (b :: bs)
  end.

(** [numberOfFrames = int(bitRate*duration)]. *)
Definition numberOfFrames (bitRate : Z) (duration_ : Q) : Z :=
  Qtrunc (inject_Z bitRate * duration_).

(** [fadingFrames], clamped to the number of frames. *)
Definition fadingFrames (bitRate n : Z) : Z :=
  let ff := Qtrunc ((1 # 100) * inject_Z bitRate) in
  if (ff >? n)%Z then n else ff.

Definition fadeInFrames (bitRate n : Z) : Z := (fadingFrames bitRate n / 2)%Z.
Definition fadeOutFrames (bitRate n : Z) : Z :=
  ((fadingFrames bitRate n + 1) / 2)%Z.

(** The value of [frame] after [frame += 128], for index [x] of a pitched
    note of [n] frames. *)
Definition frame_at (bitRate : Z) (freq amplitude : R) (n x : Z) : result R :=
  let fadeIn := fadeInFrames bitRate n in
  let fadeOut := fadeOutFrames bitRate n in
  let x_f := IZR x in
  t <- Rdiv_int x_f bitRate ;;
  let frame := sin (t * freq * TWO_PI) in
  if (x <? fadeIn)%Z then
    r <- Rdiv_int x_f fadeIn ;;
    Ok (frame * (r * amplitude) + 128)%R
  else if (x >=? n - fadeOut)%Z then
    let x_f' := (x_f - IZR (n - fadeOut))%R in
    r <- Rdiv_int x_f' fadeOut ;;
    Ok (frame * ((1 - r) * amplitude) + 128)%R
  else
    Ok (frame * amplitude + 128)%R.

(** The envelope factor the code applies at index [x]. *)
Definition ramp (bitRate n x : Z) : R :=
  let fadeIn := fadeInFrames bitRate n in
  let fadeOut := fadeOutFrames bitRate n in
  if (x <? fadeIn)%Z then (IZR x / IZR fadeIn)%R
  else if (x >=? n - fadeOut)%Z
       then (1 - (IZR x - IZR (n - fadeOut)) / IZR fadeOut)%R
       else 1%R.

(** The value [frame_at] computes when none of its divisions raises. *)
Definition frame_value (bitRate : Z) (freq amplitude : R) (n x : Z) : R :=
  (sin (IZR x / IZR bitRate * freq * TWO_PI)
   * (ramp bitRate n x * amplitude) + 128)%R.

(** The body of the inner loop of [convertToWaveData]: the chunk of one
    note, as the list of its character codes. *)
Definition render_note (bitRate : Z) (bps : Q) (bar : Bar) (note : Note)
  : result (list Z) :=
  duration_ <- float_div (inject_Z (divisor bar) * duration note) bps ;;
  fr <- frequency note ;;
  let amplitude := Q2R (dynamic note) in
  let n := numberOfFrames bitRate duration_ in
  match fr with
  | None => mapM (fun _ => chr 128) (xrange n)
  | Some freq =>
      mapM (fun x => frame <- frame_at bitRate freq amplitude n x ;;
                     chr (Rtrunc frame))
           (xrange n)
  end.

Definition convertToWaveData (self : Composition) (bitRate : Z)
  : result (list (list Z)) :=
  let bps := (bpm self / 60)%Q in
  chunks <- mapM (fun bar => mapM (render_note bitRate bps bar) (notes bar))
                 (bars self) ;;
  Ok (List.concat chunks).

(** The notes in the order the two loops visit them, each with its bar. *)
Definition score (self : Composition) : list (Bar * Note) :=
  flat_map (fun bar => map (pair bar) (notes bar)) (bars self).

(** ** The notes of [main]

    as the exact reading holds them: tone and loudness are the values of
    the members [main] passes.  The notes with the members themselves are
    in [F64.Main]. *)

Module Demo.
Definition d : Q := 1 / 16.
Definition r : Note := mkNote d VNone 0 0 (Dynamic.val Dynamic.mf).
Definition a : Note :=
  mkNote d (VNum (Tone.val Tone.A)) (-1) 0 (Dynamic.val Dynamic.f).
Definition a_s : Note :=
  mkNote d (VNum (Tone.val Tone.A)) (-1) 1 (Dynamic.val Dynamic.f).
Definition b : Note :=
  mkNote d (VNum (Tone.val Tone.B)) (-1) 0 (Dynamic.val Dynamic.f).
Definition c : Note :=
  mkNote d (VNum (Tone.val Tone.C)) 0 0 (Dynamic.val Dynamic.f).
Definition d_s : Note :=
  mkNote d (VNum (Tone.val Tone.D)) 0 1 (Dynamic.val Dynamic.p).
Definition g : Note :=
  mkNote d (VNum (Tone.val Tone.G)) 0 0 (Dynamic.val Dynamic.p).
Definition notes1 : list Note :=
  [c; d_s; g; d_s; c; d_s; g; d_s; c; d_s; g; d_s; c; d_s; g; d_s].
Definition notes4 : list Note :=
  [a; d_s; g; d_s; a; d_s; g; d_s; a; d_s; g; d_s; c; b; a; b].
Definition notes2 : list Note :=
  [b; d_s; g; d_s; b; d_s; g; d_s; b; d_s; g; d_s; b; d_s; g; d_s].
Definition notes3 : list Note :=
  [a_s; d_s; g; d_s; a_s; d_s; g; d_s; a_s; d_s; g; d_s; a_s; d_s; g; d_s].
Definition bitRate : Z := 44100.
Definition composition : Composition :=
  Composition_init [mkBar 4 4 notes1; mkBar 4 4 notes2;
                    mkBar 4 4 notes3; mkBar 4 4 notes4] 120.
End Demo.

(** ** Reference definitions following the specification's wording *)

(** [round] to the nearest integer, halves away from zero. *)
Definition spec_round (q : Q) : Z :=
  if Qle_bool 0 q then Qfloor (q + (1 # 2)) else Qceiling (q - (1 # 2)).

(** [frameCount = round(sampleRate * divisor * duration / (bpm/60))]. *)
Definition spec_frameCount (sampleRate divisor_ : Z) (duration_ bpm_ : Q) : Z :=
  spec_round (inject_Z sampleRate * (inject_Z divisor_ * duration_ / (bpm_ / 60))).

(** [fadeFrames = min(frameCount, round(0.01 * sampleRate))]. *)
Definition spec_fadeFrames (sampleRate frameCount : Z) : Z :=
  Z.min frameCount (spec_round ((1 # 100) * inject_Z sampleRate)).

(** The envelope factor as the specification words it, from [spec_fadeFrames]
    with [floor] and [ceil] halves; both ramps apply where their conditions
    hold. *)
Definition spec_ramp (sampleRate frameCount x : Z) : R :=
  let fadeFrames := spec_fadeFrames sampleRate frameCount in
  let fadeIn := (fadeFrames / 2)%Z in
  let fadeOut := (fadeFrames - fadeFrames / 2)%Z in
  ((if (x <? fadeIn)%Z then IZR x / IZR fadeIn else 1)
   * (if (x >=? frameCount - fadeOut)%Z
      then 1 - (IZR x - IZR (frameCount - fadeOut)) / IZR fadeOut
      else 1))%R.

Definition clamp255 (z : Z) : Z := Z.max 0 (Z.min 255 z).

(** The sample the specification describes: amplitude times sine times the
    envelope, shifted by 128, quantized and clamped. *)
Definition spec_sample (sampleRate : Z) (freq amplitude : R)
    (frameCount x : Z) : Z :=
  clamp255 (Rtrunc (amplitude * sin (2 * PI * freq * IZR x / IZR sampleRate)
                    * spec_ramp sampleRate frameCount x + 128)%R).

(** * The binary64 reading

    The same program with its numbers as Python has them.  A float is an
    IEEE 754 binary64 value ([PrimFloat.float]) and every operation rounds
    to nearest, ties to even.  A value is [None], an int, a float, a member
    of one of the three enumerations, or a bound method; a member of an
    [Enum] class is not a number and arithmetic on it raises [TypeError].
    The conversions [float()] and [int()] and the mixed int/float
    operations raise [OverflowError], [ValueError] and [ZeroDivisionError]
    where Python does.

    [math.pow] and [math.sin] belong to the platform's C library, not to
    the program: the definitions take them as a parameter ([libm]). *)

Module F64.
#[local] Set Warnings "-inexact-float".
Local Open Scope float_scope.

Inductive pyval : Type :=
| PNone
| PInt (z : Z)
| PFloat (f : float)
| PTone (t : Tone.t)
| PSign (s : Sign.t)
| PDynamic (d : Dynamic.t)
| PMethod.

(** The [value] of an enumeration member. *)
Definition Tone_value (x : Tone.t) : pyval :=
  match x with
  | Tone.C => PInt 0 | Tone.D => PInt 2 | Tone.E => PInt 4 | Tone.F => PInt 5
  | Tone.G => PInt 7 | Tone.A => PInt 9 | Tone.B => PInt 11
  end.

Definition Sign_value (x : Sign.t) : pyval :=
  match x with
  | Sign.DoubleFlat => PInt (-2)
  | Sign.Flat => PInt (-1)
  | Sign.HalfFlat => PFloat (-0.5)
  | Sign.HalfSharp => PFloat 0.5
  | Sign.Sharp => PInt 1
  | Sign.DoubleSharp => PInt 2
  end.

Definition Dynamic_value (x : Dynamic.t) : pyval :=
  match x with
  | Dynamic.ppp => PInt 16 | Dynamic.pp => PInt 33 | Dynamic.p => PInt 49
  | Dynamic.mp => PInt 64 | Dynamic.mf => PInt 80 | Dynamic.f => PInt 96
  | Dynamic.ff => PInt 112 | Dynamic.fff => PInt 126
  end.

(** The C library. *)
Record libm : Type := mkLibm {
  math_pow : float -> float -> result float;
  math_sin : float -> result float
}.

(** *** Numbers *)

(** The float nearest to an int (ties to even); [infinity] beyond the
    range of binary64. *)
Definition float_of_Z (z : Z) : float :=
  SF2Prim (binary_normalize prec emax z 0 false).

(** An int operand of a float operation, and [float(z)]. *)
Definition float_of_int (z : Z) : result float :=
  let f := float_of_Z z in
  if is_infinity f then Raise OverflowError else Ok f.

(** [int(f)]: truncation toward zero. *)
Definition int_of_float (f : float) : result Z :=
  match Prim2SF f with
  | S754_zero _ => Ok 0%Z
  | S754_infinity _ => Raise OverflowError
  | S754_nan => Raise ValueError
  | S754_finite s m e =>
      let a := Z.shiftl (Z.pos m) e in
      Ok (if s then (- a)%Z else a)
  end.

(** An operand of a float operation. *)
Definition to_double (v : pyval) : result float :=
  match v with
  | PInt z => float_of_int z
  | PFloat f => Ok f
  | _ => Raise TypeError
  end.

Definition py_float (v : pyval) : result float := to_double v.

Definition py_int (v : pyval) : result Z :=
  match v with
  | PInt z => Ok z
  | PFloat f => int_of_float f
  | _ => Raise TypeError
  end.

(** [a + b]. *)
Definition py_add (a b : pyval) : result pyval :=
  match a, b with
  | PInt x, PInt y => Ok (PInt (x + y))
  | PInt x, PFloat y => x' <- float_of_int x ;; Ok (PFloat (x' + y))
  | PFloat x, PInt y => y' <- float_of_int y ;; Ok (PFloat (x + y'))
  | PFloat x, PFloat y => Ok (PFloat (x + y))
  | _, _ => Raise TypeError
  end.

(** [a / b] on floats. *)
Definition div_float (a b : float) : result float :=
  if b =? 0 then Raise ZeroDivisionError else Ok (a / b).

(** [a / b] with a float [a] and an int [b]; the int converts to [0.0]
    only when it is [0]. *)
Definition div_float_int (a : float) (b : Z) : result float :=
  if (b =? 0)%Z then Raise ZeroDivisionError
  else b' <- float_of_int b ;; Ok (a / b').

(** *** Note *)

Record Note : Type := mkNote {
  duration : float;
  tone : pyval;
  octave : Z;
  sign : pyval;
  dynamic : pyval
}.

Definition Note_init (duration_ tone_ octave_ sign_ dynamic_ : pyval)
  : result Note :=
  d <- py_float duration_ ;;
  o <- py_int octave_ ;;
  Ok (mkNote d tone_ o sign_ dynamic_).

(** [Note(duration)], the other arguments at their defaults. *)
Definition Note_rest (duration_ : pyval) : result Note :=
  Note_init duration_ PNone (PInt 0) (PInt 0) (PDynamic Dynamic.mf).

(** The note [Note(d)] constructs from a float [d]. *)
Definition rest (d : float) : Note :=
  mkNote d PNone 0 (PInt 0) (PDynamic Dynamic.mf).

Definition Note_getattr (n : Note) (name : string) : result pyval :=
  if String.eqb name "duration" then Ok (PFloat (duration n))
  else if String.eqb name "tone" then Ok (tone n)
  else if String.eqb name "octave" then Ok (PInt (octave n))
  else if String.eqb name "sign" then Ok (sign n)
  else if String.eqb name "dynamic" then Ok (dynamic n)
  else if String.eqb name "frequency" then Ok PMethod
  else Raise AttributeError.

Definition frequency (L : libm) (self : Note) : result (option float) :=
  match tone self with
  | PNone => Ok None
  | t =>
      a <- py_add (PInt (octave self * 12)) t ;;
      b <- py_add a (sign self) ;;
      n <- to_double b ;;
      octaves <- div_float n 12 ;;
      p <- math_pow L 2 octaves ;;
      Ok (Some (440 * p))
  end.

(** *** Bar *)

Record Bar : Type := mkBar {
  numberOfBeats : Z;
  divisor : Z;
  notes : list Note
}.

(** [notesTotalDuration] starts as the int [0]; its sum and comparison
    with a float are those of [0.0]. *)
Fixpoint Bar_loop (barTotalDuration : float) (rest : list Note)
    (acc : list Note) (notesTotalDuration : float)
  : result (list Note * float) :=
  match rest with
  | [] => Ok (acc, notesTotalDuration)
  | note :: rest' =>
      if barTotalDuration <? notesTotalDuration + duration note then
        pitch <- Note_getattr note "pitch" ;;
        dyn <- Note_getattr note "dynamic" ;;
        clippedNote <- Note_init
                         (PFloat (barTotalDuration - notesTotalDuration))
                         pitch dyn (PInt 0) (PDynamic Dynamic.mf) ;;
        if 0 <? duration clippedNote
        then Ok (acc ++ [clippedNote],
                 notesTotalDuration + duration clippedNote)
        else Ok (acc, notesTotalDuration)
      else
        Bar_loop barTotalDuration rest' (acc ++ [note])
                 (notesTotalDuration + duration note)
  end.

(** [float(numberOfBeats)/divisor]. *)
Definition barTotal (numberOfBeats_ divisor_ : Z) : result float :=
  nb <- float_of_int numberOfBeats_ ;;
  div_float_int nb divisor_.

Definition Bar_init (notes_ : list Note) (numberOfBeats_ divisor_ : Z)
  : result Bar :=
  barTotalDuration <- barTotal numberOfBeats_ divisor_ ;;
  st <- Bar_loop barTotalDuration notes_ [] 0 ;;
  let '(acc, notesTotalDuration) := st in
  if notesTotalDuration <? barTotalDuration then
    pad <- Note_rest (PFloat (barTotalDuration - notesTotalDuration)) ;;
    Ok (mkBar numberOfBeats_ divisor_ (acc ++ [pad]))
  else
    Ok (mkBar numberOfBeats_ divisor_ acc).

Definition runningTotal (l : list Note) (tot : float) : float :=
  fold_left (fun a n => a + duration n) l tot.

(** The test [notesTotalDuration+note.duration > barTotalDuration] fails
    on every note of [l]. *)
Fixpoint fits (barTotalDuration : float) (l : list Note) (tot : float)
  : bool :=
  match l with
  | [] => true
  | n :: l' =>
      negb (barTotalDuration <? tot + duration n)
      && fits barTotalDuration l' (tot + duration n)
  end.

(** *** Composition and waveform synthesis *)

Record Composition : Type := mkComposition {
  bars : list Bar;
  bpm : float
}.

Definition Composition_init (bars_ : list Bar) (bpm_ : pyval)
  : result Composition :=
  b <- py_float bpm_ ;;
  Ok (mkComposition bars_ b).

Definition PI : float := 0x1.921fb54442d18p+1.
Definition TWO_PI : float := 2 * PI.

(** [sys.maxint] of a 64-bit build. *)
Definition maxint : Z := (2 ^ 63 - 1)%Z.

(** [chr(i)]: an int beyond a machine word raises [OverflowError], any
    other outside [range(256)] raises [ValueError]. *)
Definition chr (i : Z) : result Z :=
  if ((i <? - maxint - 1) || (maxint <? i))%Z then Raise OverflowError
  else if ((0 <=? i) && (i <? 256))%Z then Ok i
  else Raise ValueError.

(** [xrange(n)] takes a machine word. *)
Definition xrange (n : Z) : result (list Z) :=
  if ((n <? - maxint - 1) || (maxint <? n))%Z then Raise OverflowError
  else Ok (xrange n).

(** [fadingFrames], clamped to the number of frames. *)
Definition fadingFrames (bitRate n : Z) : result Z :=
  fb <- float_of_int bitRate ;;
  ff <- int_of_float (0.01 * fb) ;;
  Ok (if (ff >? n)%Z then n else ff).

(** The factor [frame] is multiplied by at index [x]. *)
Definition gain (amplitude : pyval) (n fadeIn fadeOut x : Z) (x_f : float)
  : result float :=
  if (x <? fadeIn)%Z then
    r <- div_float_int x_f fadeIn ;;
    a <- to_double amplitude ;;
    Ok (r * a)
  else if (x >=? n - fadeOut)%Z then
    k <- float_of_int (n - fadeOut) ;;
    r <- div_float_int (x_f - k) fadeOut ;;
    a <- to_double amplitude ;;
    Ok ((1 - r) * a)
  else
    to_double amplitude.

(** The factor [gain] computes when nothing raises, for the loudness [a]
    as a float. *)
Definition envelope (a : float) (n fadeIn fadeOut x : Z) : float :=
  if (x <? fadeIn)%Z then
    float_of_Z x / float_of_Z fadeIn * a
  else if (x >=? n - fadeOut)%Z then
    (1 - (float_of_Z x - float_of_Z (n - fadeOut)) / float_of_Z fadeOut) * a
  else a.

(** The value of [frame] after [frame += 128], for index [x]. *)
Definition frame_at (L : libm) (bitRate : Z) (freq : float)
    (amplitude : pyval) (n fadeIn fadeOut x : Z) : result float :=
  x_f <- float_of_int x ;;
  t <- div_float_int x_f bitRate ;;
  frame <- math_sin L (t * freq * TWO_PI) ;;
  g <- gain amplitude n fadeIn fadeOut x x_f ;;
  Ok (frame * g + 128).

(** [duration = bar.divisor*note.duration/bps]. *)
Definition seconds (bps : float) (bar : Bar) (note : Note) : result float :=
  dv <- float_of_int (divisor bar) ;;
  div_float (dv * duration note) bps.

(** [numberOfFrames = int(bitRate*duration)]. *)
Definition numberOfFrames (bitRate : Z) (duration_ : float) : result Z :=
  fb <- float_of_int bitRate ;;
  int_of_float (fb * duration_).

Definition render_note (L : libm) (bitRate : Z) (bps : float) (bar : Bar)
    (note : Note) : result (list Z) :=
  duration_ <- seconds bps bar note ;;
  fr <- frequency L note ;;
  let amplitude := dynamic note in
  n <- numberOfFrames bitRate duration_ ;;
  match fr with
  | None =>
      xs <- xrange n ;;
      mapM (fun _ => chr 128) xs
  | Some freq =>
      ff <- fadingFrames bitRate n ;;
      let fadeIn := (ff / 2)%Z in
      let fadeOut := ((ff + 1) / 2)%Z in
      xs <- xrange n ;;
      mapM (fun x =>
              frame <- frame_at L bitRate freq amplitude n fadeIn fadeOut x ;;
              i <- int_of_float frame ;;
              chr i)
           xs
  end.

Definition convertToWaveData (L : libm) (self : Composition) (bitRate : Z)
  : result (list (list Z)) :=
  bps <- div_float_int (bpm self) 60 ;;
  chunks <- mapM (fun bar => mapM (render_note L bitRate bps bar) (notes bar))
                 (bars self) ;;
  Ok (List.concat chunks).

(** The notes in the order the two loops visit them, each with its bar. *)
Definition score (self : Composition) : list (Bar * Note) :=
  flat_map (fun bar => map (pair bar) (notes bar)) (bars self).

(** A program of one bar:
    [Composition([Bar(notes, beats, divisor)], bpm).convertToWaveData(bitRate)]. *)
Definition one_bar (L : libm) (notes_ : list Note) (numberOfBeats_ divisor_ : Z)
    (bpm_ : pyval) (bitRate : Z) : result (list (list Z)) :=
  bar <- Bar_init notes_ numberOfBeats_ divisor_ ;;
  composition <- Composition_init [bar] bpm_ ;;
  convertToWaveData L composition bitRate.

(** *** Recorded values of the C library

    [recorded] answers with the values [math.pow] and [math.sin] return on
    the reference platform (CPython on glibc, x86-64) at the arguments of
    the examples below.  Besides the two tables it knows [math.pow(2.0, y)]
    at an integer [y], where the result is the power of two itself,
    [OverflowError] from 1024 on and [0.0] below -1075; [math.sin] of a
    zero, which is that zero; and [math.sin] of an infinity, a
    [ValueError].  It is not the C library: at any other argument it has no
    entry and answers [unrecorded]. *)
Definition unrecorded : result float := Raise ValueError.

Fixpoint lookup (tbl : list (float * float)) (x : float) : result float :=
  match tbl with
  | [] => unrecorded
  | (a, v) :: tbl' => if a =? x then Ok v else lookup tbl' x
  end.

Definition pow_table : list (float * float) :=
  [ (0.75, 1.681792830507429);
    (1.1666666666666667, 2.244924096618746);
    (2.1666666666666665, 4.489848193237491) ].

Definition sin_table : list (float * float) :=
  [ (7.853981633974483, 1);
    (15.707963267948966, 6.123233995736766e-16);
    (23.561944901923447, -1);
    (31.41592653589793, -1.2246467991473533e-15) ].

Definition pow2 (y : float) : result float :=
  if is_nan y then Ok nan
  else if y =? infinity then Ok infinity
  else if 1024 <=? y then Raise OverflowError
  else if y <? -1075 then Ok 0
  else match int_of_float y with
       | Ok n => if float_of_Z n =? y then Ok (Z.ldexp 1 n)
                 else lookup pow_table y
       | Raise _ => unrecorded
       end.

Definition recorded : libm :=
  mkLibm (fun x y => if x =? 2 then pow2 y else unrecorded)
         (fun x => if x =? 0 then Ok x
                   else if is_nan x then Ok nan
                   else if is_infinity x then Raise ValueError
                   else lookup sin_table x).

(** *** The score built by [main] *)

Module Main.
Definition d : float := 1 / 16.
Definition r : Note := mkNote d PNone 0 (PInt 0) (PDynamic Dynamic.mf).
Definition a : Note :=
  mkNote d (PTone Tone.A) (-1) (PInt 0) (PDynamic Dynamic.f).
Definition a_s : Note :=
  mkNote d (PTone Tone.A) (-1) (PInt 1) (PDynamic Dynamic.f).
Definition b : Note :=
  mkNote d (PTone Tone.B) (-1) (PInt 0) (PDynamic Dynamic.f).
Definition c : Note :=
  mkNote d (PTone Tone.C) 0 (PInt 0) (PDynamic Dynamic.f).
Definition d_s : Note :=
  mkNote d (PTone Tone.D) 0 (PInt 1) (PDynamic Dynamic.p).
Definition g : Note :=
  mkNote d (PTone Tone.G) 0 (PInt 0) (PDynamic Dynamic.p).
Definition notes1 : list Note :=
  [c; d_s; g; d_s; c; d_s; g; d_s; c; d_s; g; d_s; c; d_s; g; d_s].
Definition notes2 : list Note :=
  [b; d_s; g; d_s; b; d_s; g; d_s; b; d_s; g; d_s; b; d_s; g; d_s].
Definition notes3 : list Note :=
  [a_s; d_s; g; d_s; a_s; d_s; g; d_s; a_s; d_s; g; d_s; a_s; d_s; g; d_s].
Definition notes4 : list Note :=
  [a; d_s; g; d_s; a; d_s; g; d_s; a; d_s; g; d_s; c; b; a; b].
Definition bitRate : Z := 44100.

(** [main] up to the call of [convertToWaveData]. *)
Definition waveData (L : libm) : result (list (list Z)) :=
  bar1 <- Bar_init notes1 4 4 ;;
  bar2 <- Bar_init notes2 4 4 ;;
  bar3 <- Bar_init notes3 4 4 ;;
  bar4 <- Bar_init notes4 4 4 ;;
  composition <- Composition_init [bar1; bar2; bar3; bar4] (PInt 120) ;;
  convertToWaveData L composition bitRate.
End Main.

End F64.

(** * Properties of the exact reading *)

(** ** Worked examples *)

Example Bar_init_demo :
  Bar_init [mkNote (1#2) (VNum 9) 0 0 96] 4 4
  = Ok (mkBar 4 4 [mkNote (1#2) (VNum 9) 0 0 96;
                   mkNote (4 / 4 - (0 + (1#2))) VNone 0 0 80]).
Proof. reflexivity. Qed.

Example Bar_init_full :
  Bar_init [mkNote (1#2) (VNum 9) 0 0 96; mkNote (1#2) VNone 0 0 80] 4 4
  = Ok (mkBar 4 4 [mkNote (1#2) (VNum 9) 0 0 96; mkNote (1#2) VNone 0 0 80]).
Proof. reflexivity. Qed.

Example Demo_a_init :
  Note_init (VNum Demo.d) (VNum (Tone.val Tone.A)) (VNum (-1)) 0
            (Dynamic.val Dynamic.f)
  = Ok Demo.a.
Proof. reflexivity. Qed.

Example Demo_bar1 :
  Bar_init Demo.notes1 4 4 = Ok (mkBar 4 4 Demo.notes1).
Proof. reflexivity. Qed.

Example Demo_bar4 :
  Bar_init Demo.notes4 4 4 = Ok (mkBar 4 4 Demo.notes4).
Proof. reflexivity. Qed.

Example Demo_bar4_in_three_four :
  Bar_init Demo.notes4 3 4 = Raise AttributeError.
Proof. reflexivity. Qed.

Example Note_getattr_pitch (n : Note) :
  Note_getattr n "pitch" = Raise AttributeError.
Proof. reflexivity. Qed.

(** ** Boolean comparisons *)

Lemma Qgtb_true (a b : Q) : Qgtb a b = true <-> (b < a)%Q.
Proof.
  unfold Qgtb. rewrite negb_true_iff, <- not_true_iff_false, Qle_bool_iff.
  split; [apply Qnot_le_lt | apply Qlt_not_le].
Qed.

Lemma Qgtb_false (a b : Q) : Qgtb a b = false <-> (a <= b)%Q.
Proof. unfold Qgtb. now rewrite negb_false_iff, Qle_bool_iff. Qed.

Lemma Qltb_true (a b : Q) : Qltb a b = true <-> (a < b)%Q.
Proof. apply (Qgtb_true b a). Qed.

Lemma Qltb_false (a b : Q) : Qltb a b = false <-> (b <= a)%Q.
Proof. apply (Qgtb_false b a). Qed.

(** ** The bar normaliser *)

Section BarNormalizer.

Variable barTotalDuration : Q.

Lemma Bar_loop_fits (l acc : list Note) (tot : Q) :
  fits barTotalDuration l tot = true ->
  Bar_loop barTotalDuration l acc tot = Ok (acc ++ l, runningTotal l tot).
Proof.
  revert acc tot.
  induction l as [|n l IH]; intros acc tot Hfit; simpl in *.
  - now rewrite app_nil_r.
  - apply andb_true_iff in Hfit as [Hle Hrest].
    unfold Qgtb. rewrite Hle. simpl.
    rewrite (IH _ _ Hrest), <- app_assoc. reflexivity.
Qed.

Lemma Bar_loop_overflow (pre post acc : list Note) (note : Note) (tot : Q) :
  fits barTotalDuration pre tot = true ->
  (barTotalDuration < runningTotal pre tot + duration note)%Q ->
  Bar_loop barTotalDuration (pre ++ note :: post) acc tot
  = Raise AttributeError.
Proof.
  revert acc tot.
  induction pre as [|n pre IH]; intros acc tot Hfit Hover; simpl in *.
  - apply Qgtb_true in Hover. rewrite Hover. reflexivity.
  - apply andb_true_iff in Hfit as [Hle Hrest].
    unfold Qgtb. rewrite Hle. simpl. now apply IH.
Qed.

End BarNormalizer.

Lemma float_div_ok (a b : Z) :
  b <> 0%Z ->
  float_div (inject_Z a) (inject_Z b) = Ok (inject_Z a / inject_Z b)%Q.
Proof.
  intros Hb. unfold float_div.
  destruct (Qeq_bool (inject_Z b) 0) eqn:E; [|reflexivity].
  apply Qeq_bool_iff in E. unfold Qeq in E. simpl in E. lia.
Qed.

Lemma notesTotal_snoc (l : list Note) (n : Note) :
  notesTotal (l ++ [n]) = (notesTotal l + duration n)%Q.
Proof. unfold notesTotal, runningTotal. now rewrite fold_left_app. Qed.

(** What [Bar.__init__] returns when no note overflows the bar. *)
Lemma Bar_init_fits (notes_ : list Note) (beats div : Z) :
  div <> 0%Z ->
  fits (inject_Z beats / inject_Z div) notes_ 0 = true ->
  Bar_init notes_ beats div
  = if Qltb (notesTotal notes_) (inject_Z beats / inject_Z div)
    then Ok (mkBar beats div
               (notes_ ++ [mkNote (inject_Z beats / inject_Z div
                                   - notesTotal notes_)
                                  VNone 0 0 (Dynamic.val Dynamic.mf)]))
    else Ok (mkBar beats div notes_).
Proof.
  intros Hdiv Hfit. unfold Bar_init.
  rewrite (float_div_ok _ _ Hdiv). simpl bind.
  rewrite (Bar_loop_fits _ _ [] _ Hfit). simpl bind.
  fold (notesTotal notes_).
  destruct (Qltb _ _); reflexivity.
Qed.

Lemma Bar_loop_fits_or_raises (bt : Q) (l acc : list Note) (tot : Q) :
  fits bt l tot = true \/ Bar_loop bt l acc tot = Raise AttributeError.
Proof.
  revert acc tot. induction l as [|n l IH]; intros acc tot; simpl.
  - now left.
  - unfold Qgtb. destruct (Qle_bool (tot + duration n) bt); simpl.
    + apply IH.
    + now right.
Qed.

Lemma fits_runningTotal_le (bt : Q) (l : list Note) (tot : Q) :
  fits bt l tot = true -> (tot <= bt)%Q -> (runningTotal l tot <= bt)%Q.
Proof.
  revert tot. induction l as [|n l IH]; intros tot Hfit Htot; simpl in *.
  - exact Htot.
  - apply andb_true_iff in Hfit as [Hle Hrest].
    apply IH; [exact Hrest | now apply Qle_bool_iff].
Qed.

Lemma barTotal_pos (beats div : Z) :
  (0 < beats)%Z -> (0 < div)%Z -> (0 < inject_Z beats / inject_Z div)%Q.
Proof.
  intros Hb Hd. apply Qlt_shift_div_l.
  - unfold Qlt. simpl. lia.
  - unfold Qlt. simpl. lia.
Qed.

(** For a positive time signature [Bar.__init__] has two outcomes: a bar
    whose durations sum to beats/divisor, or [AttributeError] (exactly when
    some note overflows the bar). *)
Lemma Bar_init_sum_or_raise (notes_ : list Note) (beats div : Z) :
  (0 < beats)%Z -> (0 < div)%Z ->
  (exists bar,
      Bar_init notes_ beats div = Ok bar
      /\ (notesTotal (notes bar) == inject_Z beats / inject_Z div)%Q)
  \/ Bar_init notes_ beats div = Raise AttributeError.
Proof.
  intros Hb Hd.
  assert (Hdiv : div <> 0%Z) by lia.
  pose proof (barTotal_pos beats div Hb Hd) as Hpos.
  destruct (Bar_loop_fits_or_raises (inject_Z beats / inject_Z div)
              notes_ [] 0) as [Hfit|Hraise].
  - left. rewrite (Bar_init_fits _ _ _ Hdiv Hfit).
    destruct (Qltb (notesTotal notes_) (inject_Z beats / inject_Z div)) eqn:E.
    + eexists. split; [reflexivity|]. simpl notes.
      rewrite notesTotal_snoc. simpl. ring.
    + eexists. split; [reflexivity|]. simpl notes.
      apply Qltb_false in E.
      apply Qle_antisym; [|exact E].
      apply fits_runningTotal_le; [exact Hfit | now apply Qlt_le_weak].
  - right. unfold Bar_init. rewrite (float_div_ok _ _ Hdiv). simpl bind.
    now rewrite Hraise.
Qed.

(** C1 (as the code behaves).  When the running duration sum first exceeds
    the bar at some note, [Bar.__init__] does not build the clipped note:
    evaluating the constructor argument [note.pitch] raises [AttributeError],
    whatever precedes or follows the note. *)
Theorem Bar_init_clipping_raises
    (pre post : list Note) (note : Note) (beats div : Z) :
  div <> 0%Z ->
  fits (inject_Z beats / inject_Z div) pre 0 = true ->
  (inject_Z beats / inject_Z div < notesTotal pre + duration note)%Q ->
  Bar_init (pre ++ note :: post) beats div = Raise AttributeError.
Proof.
  intros Hdiv Hfit Hover. unfold Bar_init.
  rewrite (float_div_ok _ _ Hdiv). simpl bind.
  now rewrite (Bar_loop_overflow _ pre post [] note 0 Hfit Hover).
Qed.

Lemma Bar_init_clipping_raises_witness :
  Bar_init ([mkNote (1#4) VNone 0 0 80]
            ++ mkNote (1#2) (VNum 9) 0 0 96 :: [mkNote (1#4) VNone 0 0 80])
           1 2
  = Raise AttributeError.
Proof.
  apply Bar_init_clipping_raises.
  - discriminate.
  - reflexivity.
  - reflexivity.
Defined.

(** C2 (as the code behaves).  A single whole note in a 1/2 bar: positive
    duration, positive time signature; no bar is constructed. *)
Theorem Bar_init_whole_note_in_half_bar :
  Bar_init [mkNote 1 (VNum 9) 0 0 80] 1 2 = Raise AttributeError.
Proof. reflexivity. Qed.

Example Bar_init_empty :
  Bar_init [] 3 4 = Ok (mkBar 3 4 [mkNote (3 / 4 - 0) VNone 0 0 80]).
Proof. reflexivity. Qed.

(** C9, as worded, fails: the durations -1 and 0 are accepted. *)
Lemma Note_init_nonpositive_accepted :
  (-1 <= 0)%Q
  /\ Note_init (VNum (-1)) VNone (VNum 0) 0 80
     = Ok (mkNote (-1) VNone 0 0 80)
  /\ (0 <= 0)%Q
  /\ Note_init (VNum 0) (VNum 9) (VNum 0) 0 96 = Ok (mkNote 0 (VNum 9) 0 0 96).
Proof. repeat split; discriminate. Qed.

(** ** Frequency *)

Lemma Q2R_inject_Z (z : Z) : Q2R (inject_Z z) = IZR z.
Proof. unfold Q2R, inject_Z. simpl. lra. Qed.

Lemma Q2R_octaves (o : Z) (t s : Q) :
  Q2R ((inject_Z o * 12 + t + s) / 12)
  = ((IZR o * 12 + Q2R t + Q2R s) / 12)%R.
Proof.
  unfold Qdiv. rewrite Q2R_mult, !Q2R_plus, Q2R_mult, Q2R_inject_Z.
  rewrite Q2R_inv by discriminate.
  replace (Q2R 12) with 12%R by (unfold Q2R; simpl; lra).
  reflexivity.
Qed.

Lemma frequency_pitched (d t s dyn : Q) (o : Z) :
  frequency (mkNote d (VNum t) o s dyn)
  = Ok (Some (440 * Rpower 2 ((IZR o * 12 + Q2R t + Q2R s) / 12))%R).
Proof. unfold frequency. simpl. now rewrite Q2R_octaves. Qed.

Lemma Q2R_0 : Q2R 0 = 0%R.
Proof. unfold Q2R. simpl. lra. Qed.

Lemma frequency_C (d dyn : Q) :
  frequency (mkNote d (VNum (Tone.val Tone.C)) 0 0 dyn) = Ok (Some 440%R).
Proof.
  rewrite frequency_pitched. do 2 f_equal.
  replace ((IZR 0 * 12 + Q2R (Tone.val Tone.C) + Q2R 0) / 12)%R with 0%R
    by (simpl; rewrite Q2R_0; lra).
  rewrite Rpower_O by lra. lra.
Qed.

(** ** Loops over [xrange] *)

Lemma mapM_pointwise {A B : Type} (f : A -> result B) (g : A -> B)
    (l : list A) :
  (forall a, In a l -> f a = Ok (g a)) -> mapM f l = Ok (map g l).
Proof.
  induction l as [|a l IH]; intros H; simpl.
  - reflexivity.
  - rewrite (H a (or_introl eq_refl)). simpl.
    rewrite IH by (intros b Hb; apply H; now right). reflexivity.
Qed.

Lemma xrange_In (n x : Z) : In x (xrange n) <-> (0 <= x < n)%Z.
Proof.
  unfold xrange. rewrite in_map_iff. split.
  - intros (k & <- & Hk). apply in_seq in Hk. lia.
  - intros Hx. exists (Z.to_nat x). split; [lia|]. apply in_seq. lia.
Qed.

Lemma xrange_length (n : Z) : length (xrange n) = Z.to_nat n.
Proof. unfold xrange. now rewrite length_map, length_seq. Qed.

Lemma xrange_nth {B : Type} (g : Z -> B) (n x : Z) (dflt : B) :
  (0 <= x < n)%Z -> nth (Z.to_nat x) (map g (xrange n)) dflt = g x.
Proof.
  intros Hx. unfold xrange. rewrite map_map.
  rewrite (nth_indep _ dflt (g (Z.of_nat 0)))
    by (rewrite length_map, length_seq; lia).
  rewrite (map_nth (fun k => g (Z.of_nat k)) (seq 0 (Z.to_nat n)) 0%nat).
  rewrite seq_nth by lia. f_equal. lia.
Qed.

Lemma map_const_repeat {A B : Type} (b : B) (l : list A) :
  map (fun _ => b) l = repeat b (length l).
Proof. induction l; simpl; congruence. Qed.

Lemma rest_chunk (n : Z) :
  mapM (fun _ : Z => chr 128) (xrange n) = Ok (repeat 128%Z (Z.to_nat n)).
Proof.
  rewrite (mapM_pointwise _ (fun _ => 128%Z)) by reflexivity.
  now rewrite map_const_repeat, xrange_length.
Qed.

(** ** Truncation of reals *)

Lemma Rtrunc_bounds (a b : Z) (r : R) :
  (0 <= a)%Z -> (IZR a <= r <= IZR b)%R -> (a <= Rtrunc r <= b)%Z.
Proof.
  intros Ha [Hlo Hhi].
  assert (H0 : (0 <= r)%R).
  { apply Rle_trans with (IZR a); [apply IZR_le; lia | exact Hlo]. }
  unfold Rtrunc. destruct (Rle_dec 0 r) as [_|N]; [|contradiction].
  destruct (base_Int_part r) as [Hle Hgt].
  split.
  - assert (IZR a < IZR (Int_part r + 1))%R by (rewrite plus_IZR; lra).
    apply lt_IZR in H. lia.
  - apply le_IZR. lra.
Qed.

Lemma Rtrunc_IZR (z : Z) : Rtrunc (IZR z) = z.
Proof.
  unfold Rtrunc. destruct (Rle_dec 0 (IZR z)) as [H|H].
  - symmetry. apply Int_part_spec. lra.
  - rewrite <- opp_IZR. rewrite <- (Int_part_spec (IZR (- z)) (- z)) by lra.
    lia.
Qed.

(** ** The fade envelope *)

Lemma fadingFrames_min (bitRate n : Z) :
  fadingFrames bitRate n = Z.min n (Qtrunc ((1 # 100) * inject_Z bitRate)).
Proof.
  unfold fadingFrames.
  destruct (Z.gtb_spec (Qtrunc ((1 # 100) * inject_Z bitRate)) n); lia.
Qed.

Lemma fadeInFrames_floor (bitRate n : Z) :
  (2 * fadeInFrames bitRate n <= fadingFrames bitRate n
   < 2 * fadeInFrames bitRate n + 2)%Z.
Proof. unfold fadeInFrames. pose proof (Z.div_mod (fadingFrames bitRate n) 2).
  pose proof (Z.mod_pos_bound (fadingFrames bitRate n) 2). lia.
Qed.

Lemma fadeOutFrames_ceil (bitRate n : Z) :
  fadeOutFrames bitRate n
  = (fadingFrames bitRate n - fadeInFrames bitRate n)%Z.
Proof.
  unfold fadeOutFrames, fadeInFrames.
  generalize (fadingFrames bitRate n). intros k.
  pose proof (Z.div_mod k 2). pose proof (Z.mod_pos_bound k 2).
  pose proof (Z.div_mod (k + 1) 2). pose proof (Z.mod_pos_bound (k + 1) 2).
  lia.
Qed.

Lemma Rdiv_unit (u w : R) : (0 <= u < w)%R -> (0 <= u / w <= 1)%R.
Proof.
  intros [H0 H1].
  assert (Hw : (0 < / w)%R) by (apply Rinv_0_lt_compat; lra).
  unfold Rdiv. split.
  - apply Rmult_le_pos; lra.
  - apply Rmult_le_reg_r with w; [lra|].
    rewrite Rmult_assoc, Rinv_l by lra. lra.
Qed.

Lemma ramp_bounds (bitRate n x : Z) :
  (0 <= x < n)%Z -> (0 <= ramp bitRate n x <= 1)%R.
Proof.
  intros [H0 Hn]. unfold ramp.
  destruct (Z.ltb_spec x (fadeInFrames bitRate n)) as [Hin|Hin].
  - assert (0 <= IZR x)%R by (apply IZR_le; lia).
    assert (IZR x < IZR (fadeInFrames bitRate n))%R by (now apply IZR_lt).
    apply Rdiv_unit; lra.
  - destruct (Z.geb_spec x (n - fadeOutFrames bitRate n)) as [Hout|Hout];
      [|lra].
    rewrite <- minus_IZR.
    assert (0 <= IZR (x - (n - fadeOutFrames bitRate n)))%R
      by (apply IZR_le; lia).
    assert (IZR (x - (n - fadeOutFrames bitRate n))
            < IZR (fadeOutFrames bitRate n))%R by (apply IZR_lt; lia).
    set (u := IZR (x - (n - fadeOutFrames bitRate n))) in *.
    set (w := IZR (fadeOutFrames bitRate n)) in *.
    pose proof (Rdiv_unit u w). lra.
Qed.

(** ** One frame of a pitched note *)

Lemma Rdiv_int_ok (a : R) (b : Z) :
  b <> 0%Z -> Rdiv_int a b = Ok (a / IZR b)%R.
Proof.
  intros Hb. unfold Rdiv_int.
  destruct (Z.eqb_spec b 0); [contradiction | reflexivity].
Qed.

Lemma frame_at_ok (bitRate : Z) (freq amplitude : R) (n x : Z) :
  bitRate <> 0%Z -> (0 <= x < n)%Z ->
  frame_at bitRate freq amplitude n x
  = Ok (frame_value bitRate freq amplitude n x).
Proof.
  intros Hb [H0 Hn]. unfold frame_at, frame_value, ramp.
  rewrite (Rdiv_int_ok _ _ Hb). simpl bind.
  destruct (Z.ltb_spec x (fadeInFrames bitRate n)) as [Hin|Hin].
  - rewrite Rdiv_int_ok by lia. reflexivity.
  - destruct (Z.geb_spec x (n - fadeOutFrames bitRate n)) as [Hout|Hout].
    + rewrite Rdiv_int_ok by lia. reflexivity.
    + simpl. f_equal. ring.
Qed.

Lemma frame_value_spec_form (bitRate : Z) (freq amplitude : R) (n x : Z) :
  frame_value bitRate freq amplitude n x
  = (amplitude * sin (2 * PI * freq * IZR x / IZR bitRate)
     * ramp bitRate n x + 128)%R.
Proof.
  unfold frame_value, TWO_PI.
  replace (IZR x / IZR bitRate * freq * (2 * PI))%R
    with (2 * PI * freq * IZR x / IZR bitRate)%R by (unfold Rdiv; ring).
  ring.
Qed.

Lemma frame_value_bounds (bitRate : Z) (freq amplitude : R) (n x : Z) :
  (0 <= amplitude <= 126)%R -> (0 <= x < n)%Z ->
  (IZR 2 <= frame_value bitRate freq amplitude n x <= IZR 254)%R.
Proof.
  intros Ha Hx. unfold frame_value.
  pose proof (ramp_bounds bitRate n x Hx) as Hr.
  pose proof (SIN_bound (IZR x / IZR bitRate * freq * TWO_PI)) as Hs.
  set (sn := sin _) in *. set (rp := ramp bitRate n x) in *.
  assert (Hk : (0 <= rp * amplitude <= 126)%R) by nra.
  set (k := (rp * amplitude)%R) in *.
  assert (- k <= sn * k <= k)%R by nra.
  lra.
Qed.

Lemma sample_ok (bitRate : Z) (freq amplitude : R) (n x : Z) :
  bitRate <> 0%Z -> (0 <= amplitude <= 126)%R -> (0 <= x < n)%Z ->
  (frame <- frame_at bitRate freq amplitude n x ;; chr (Rtrunc frame))
  = Ok (Rtrunc (frame_value bitRate freq amplitude n x)).
Proof.
  intros Hb Ha Hx. rewrite frame_at_ok by assumption. simpl bind.
  pose proof (frame_value_bounds bitRate freq amplitude n x Ha Hx) as Hv.
  apply Rtrunc_bounds in Hv; [|lia].
  unfold chr.
  destruct (Z.leb_spec 0 (Rtrunc (frame_value bitRate freq amplitude n x)));
    [|lia].
  destruct (Z.ltb_spec (Rtrunc (frame_value bitRate freq amplitude n x)) 256);
    [reflexivity | lia].
Qed.

(** ** One note *)

Lemma numberOfFrames_bitRate_0 (d : Q) : numberOfFrames 0 d = 0%Z.
Proof. unfold numberOfFrames, Qtrunc. simpl. apply Z.quot_0_l. lia. Qed.

Lemma float_div_nonzero (a b : Q) : ~ (b == 0)%Q -> float_div a b = Ok (a / b)%Q.
Proof.
  intros Hb. unfold float_div.
  destruct (Qeq_bool b 0) eqn:E; [|reflexivity].
  apply Qeq_bool_iff in E. contradiction.
Qed.

Lemma Q2R_dynamic_range (q : Q) :
  (0 <= q)%Q -> (q <= 126)%Q -> (0 <= Q2R q <= 126)%R.
Proof.
  intros H0 H1. apply Qle_Rle in H0, H1.
  rewrite Q2R_0 in H0.
  replace (Q2R 126) with 126%R in H1 by (unfold Q2R; simpl; lra).
  lra.
Qed.

(** The chunk of a rest. *)
Lemma render_note_rest_chunk (bitRate : Z) (bps : Q) (bar : Bar) (note : Note) :
  tone note = VNone -> ~ (bps == 0)%Q ->
  render_note bitRate bps bar note
  = Ok (repeat 128%Z
          (Z.to_nat (numberOfFrames bitRate
                       (inject_Z (divisor bar) * duration note / bps)))).
Proof.
  intros Ht Hb. unfold render_note, frequency.
  rewrite (float_div_nonzero _ _ Hb), Ht. simpl bind.
  apply rest_chunk.
Qed.

(** The chunk of a pitched note. *)
Lemma render_note_pitched_chunk (bitRate : Z) (bps : Q) (bar : Bar)
    (note : Note) (freq : R) :
  frequency note = Ok (Some freq) ->
  ~ (bps == 0)%Q -> (0 <= dynamic note)%Q -> (dynamic note <= 126)%Q ->
  let n := numberOfFrames bitRate
             (inject_Z (divisor bar) * duration note / bps) in
  render_note bitRate bps bar note
  = Ok (map (fun x => Rtrunc (frame_value bitRate freq
                                (Q2R (dynamic note)) n x))
            (xrange n)).
Proof.
  intros Hf Hb H0 H1 n. unfold render_note.
  rewrite (float_div_nonzero _ _ Hb), Hf. simpl bind. fold n.
  apply mapM_pointwise. intros x Hx. apply xrange_In in Hx.
  apply sample_ok; trivial.
  - intros ->. unfold n in Hx. rewrite numberOfFrames_bitRate_0 in Hx. lia.
  - now apply Q2R_dynamic_range.
Qed.

(** ** The whole composition *)

Lemma Forall2_score (P : Bar * Note -> list Z -> Prop) (bs : list Bar)
    (css : list (list (list Z))) :
  Forall2 (fun bar cs => Forall2 (fun note chunk => P (bar, note) chunk)
                                 (notes bar) cs) bs css ->
  Forall2 P (flat_map (fun bar => map (pair bar) (notes bar)) bs)
          (List.concat css).
Proof.
  induction 1 as [|bar cs bs css Hhd _ IH]; simpl.
  - constructor.
  - apply Forall2_app; [|exact IH].
    clear IH. induction Hhd; simpl; constructor; assumption.
Qed.

(** ** Frame counts and fades *)

(** C5, as worded, fails: a rest of 3/32 in a 4/4 bar at 120 beats per
    minute and 44100 frames per second lasts 8268.75 frames; the code emits
    8268 samples, rounding gives 8269. *)
Lemma frame_count_not_rounded :
  let note := mkNote (3#32) VNone 0 0 80 in
  let bar := mkBar 4 4 [note; mkNote (4 / 4 - (0 + (3#32))) VNone 0 0 80] in
  Bar_init [note] 4 4 = Ok bar
  /\ (inject_Z 44100 * (inject_Z 4 * (3#32) / (120 / 60)) == 33075 # 4)%Q
  /\ spec_frameCount 44100 4 (3#32) 120 = 8269%Z
  /\ exists chunk,
       render_note 44100 (120 / 60) bar note = Ok chunk
       /\ Z.of_nat (length chunk) = 8268%Z.
Proof.
  intros note bar. repeat split.
  eexists. split.
  - apply render_note_rest_chunk; [reflexivity | discriminate].
  - rewrite repeat_length. vm_compute. reflexivity.
Qed.

Lemma ramp_unfolded (bitRate n x : Z) :
  let fadeFrames := Z.min n (Qtrunc ((1 # 100) * inject_Z bitRate)) in
  let fadeIn := (fadeFrames / 2)%Z in
  let fadeOut := (fadeFrames - fadeFrames / 2)%Z in
  ramp bitRate n x
  = if (x <? fadeIn)%Z then (IZR x / IZR fadeIn)%R
    else if (x >=? n - fadeOut)%Z
         then (1 - (IZR x - IZR (n - fadeOut)) / IZR fadeOut)%R
         else 1%R.
Proof.
  intros fadeFrames fadeIn fadeOut. unfold ramp.
  rewrite fadeOutFrames_ceil. unfold fadeInFrames.
  rewrite fadingFrames_min. reflexivity.
Qed.

Lemma sin_five_half_pi (a : R) : a = (PI / 2 + 2 * INR 1 * PI)%R -> sin a = 1%R.
Proof. intros ->. rewrite sin_period. apply sin_PI2. Qed.

Lemma Q2R_96 : Q2R 96 = 96%R.
Proof. unfold Q2R. simpl. lra. Qed.

(** Index 1 of a 176-frame note at 440 Hz and 352 frames per second:
    int(3.52) = 3 fading frames, fadeIn = 1, fadeOut = 2, so the frame is
    outside both ramps, and the sine is sin(5 pi / 2) = 1. *)
Lemma frame_value_352_1 (amplitude : R) :
  frame_value 352 440 amplitude 176 1 = (amplitude + 128)%R.
Proof.
  rewrite frame_value_spec_form, ramp_unfolded.
  change (Z.min 176 (Qtrunc ((1 # 100) * inject_Z 352))) with 3%Z.
  change (3 / 2)%Z with 1%Z. change (1 <? 1)%Z with false.
  change (1 >=? 176 - (3 - 1))%Z with false. cbv iota.
  rewrite (sin_five_half_pi (2 * PI * 440 * 1 / 352)) by (simpl INR; lra).
  lra.
Qed.

(** C4, as worded, fails where 0.01 * bitRate has a fractional part of one
    half or more.  At 352 frames per second a quarter note C (440 Hz,
    loudness 96) in a 1/4 bar at 120 beats per minute has 176 frames;
    int(3.52) = 3 gives fadeIn = 1, so index 1 is at full amplitude and
    the sample is 128 + 96 * sin(5 pi / 2) = 224, whereas round(3.52) = 4
    gives fadeIn = 2 and the sample 128 + 96 / 2 = 176. *)
Lemma sample_not_rounded_fade :
  let note := mkNote (1#4) (VNum (Tone.val Tone.C)) 0 0 96 in
  let bar := mkBar 1 4 [note] in
  Bar_init [note] 1 4 = Ok bar
  /\ frequency note = Ok (Some 440%R)
  /\ numberOfFrames 352 (inject_Z (divisor bar) * duration note / (120 / 60))
     = 176%Z
  /\ spec_sample 352 440 (Q2R (dynamic note)) 176 1 = 176%Z
  /\ exists chunk,
       render_note 352 (120 / 60) bar note = Ok chunk
       /\ nth 1 chunk 0%Z = 224%Z.
Proof.
  intros note bar.
  split; [reflexivity|]. split; [apply frequency_C|].
  split; [reflexivity|]. split.
  - unfold spec_sample, spec_ramp.
    change (spec_fadeFrames 352 176) with 4%Z.
    change (4 / 2)%Z with 2%Z. change (1 <? 2)%Z with true.
    change (1 >=? 176 - (4 - 2))%Z with false. cbv iota.
    rewrite (sin_five_half_pi (2 * PI * 440 * 1 / 352)) by (simpl INR; lra).
    change (Q2R (dynamic note)) with (Q2R 96). rewrite Q2R_96.
    replace (96 * 1 * (1 / 2 * 1) + 128)%R with (IZR 176) by lra.
    rewrite Rtrunc_IZR. reflexivity.
  - eexists. split.
    + apply (render_note_pitched_chunk 352 (120 / 60) bar note 440);
        [apply frequency_C | discriminate | discriminate | discriminate].
    + change (numberOfFrames 352
                (inject_Z (divisor bar) * duration note / (120 / 60)))
        with 176%Z.
      change 1%nat with (Z.to_nat 1).
      rewrite xrange_nth by lia.
      change (Q2R (dynamic note)) with (Q2R 96).
      rewrite frame_value_352_1, Q2R_96.
      replace (96 + 128)%R with (IZR 224) by lra.
      apply Rtrunc_IZR.
Qed.

(** ** Loudness beyond the range of [Dynamic] *)

Lemma mapM_raises {A B : Type} (f : A -> result B) (pre post : list A)
    (a : A) (e : exn) :
  (forall x, In x pre -> exists b, f x = Ok b) ->
  f a = Raise e ->
  mapM f (pre ++ a :: post) = Raise e.
Proof.
  intros Hpre Ha. induction pre as [|x pre IH]; simpl.
  - now rewrite Ha.
  - destruct (Hpre x (or_introl eq_refl)) as (b & Hb). rewrite Hb. simpl.
    rewrite IH by (intros y Hy; apply Hpre; now right). reflexivity.
Qed.

Lemma Q2R_200 : Q2R 200 = 200%R.
Proof. unfold Q2R. simpl. lra. Qed.

Lemma frame_value_0 (bitRate : Z) (freq amplitude : R) (n : Z) :
  frame_value bitRate freq amplitude n 0 = IZR 128.
Proof.
  unfold frame_value.
  replace (IZR 0 / IZR bitRate * freq * TWO_PI)%R with 0%R
    by (unfold Rdiv; ring).
  rewrite sin_0. ring.
Qed.

(** The code does not clamp: a quarter note C of loudness 200 at 352 frames
    per second reaches 128 + 200 = 328 at index 1, and [chr] raises. *)
Example loud_note_raises :
  render_note 352 (120 / 60)
    (mkBar 1 4 [mkNote (1#4) (VNum (Tone.val Tone.C)) 0 0 200])
    (mkNote (1#4) (VNum (Tone.val Tone.C)) 0 0 200)
  = Raise ValueError.
Proof.
  unfold render_note.
  rewrite float_div_nonzero by discriminate. cbn [bind].
  rewrite frequency_C. cbn [bind].
  match goal with |- context [numberOfFrames ?b ?d] =>
    change (numberOfFrames b d) with 176%Z end.
  change (xrange 176) with ([0%Z] ++ 1%Z :: map Z.of_nat (seq 2 174)).
  cbn [dynamic]. rewrite Q2R_200.
  apply mapM_raises.
  - intros x [<-|[]]. rewrite frame_at_ok by lia. cbn [bind].
    rewrite frame_value_0, Rtrunc_IZR. now exists 128%Z.
  - rewrite frame_at_ok by lia. cbn [bind].
    rewrite frame_value_352_1.
    replace (200 + 128)%R with (IZR 328) by lra.
    rewrite Rtrunc_IZR. reflexivity.
Qed.

(** * Further properties of the code *)

(** ** [Bar.__init__] *)

Lemma Bar_init_eval (notes_ : list Note) (beats div : Z) :
  Bar_init notes_ beats div
  = if (div =? 0)%Z then Raise ZeroDivisionError
    else if fits (inject_Z beats / inject_Z div) notes_ 0
         then Ok (mkBar beats div
                    (if Qltb (notesTotal notes_) (inject_Z beats / inject_Z div)
                     then notes_ ++ [mkNote (inject_Z beats / inject_Z div
                                             - notesTotal notes_)
                                            VNone 0 0 (Dynamic.val Dynamic.mf)]
                     else notes_))
         else Raise AttributeError.
Proof.
  destruct (Z.eqb_spec div 0) as [->|Hdiv]; [reflexivity|].
  destruct (fits (inject_Z beats / inject_Z div) notes_ 0) eqn:Hfit.
  - rewrite (Bar_init_fits _ _ _ Hdiv Hfit). now destruct (Qltb _ _).
  - destruct (Bar_loop_fits_or_raises (inject_Z beats / inject_Z div)
                notes_ [] 0) as [H|H]; [congruence|].
    unfold Bar_init. rewrite (float_div_ok _ _ Hdiv). cbn [bind].
    now rewrite H.
Qed.

(** X2.  A bar that is constructed keeps the time signature and the input
    notes, in order; at most one note is added, at the end, and it is a rest
    of strictly positive duration with the default octave, sign and
    dynamic. *)
Theorem Bar_init_keeps_input (notes_ : list Note) (beats div : Z) (bar : Bar) :
  Bar_init notes_ beats div = Ok bar ->
  numberOfBeats bar = beats /\ divisor bar = div
  /\ (notes bar = notes_
      \/ exists pad, notes bar = notes_ ++ [pad]
                     /\ tone pad = VNone /\ (0 < duration pad)%Q
                     /\ octave pad = 0%Z /\ sign pad = 0%Q
                     /\ dynamic pad = Dynamic.val Dynamic.mf).
Proof.
  rewrite Bar_init_eval.
  destruct (div =? 0)%Z; [discriminate|].
  destruct (fits _ notes_ 0); [|discriminate].
  intros E. injection E as <-. simpl. repeat split.
  destruct (Qltb _ _) eqn:Hlt; [right | now left].
  eexists. split; [reflexivity|]. simpl. repeat split.
  apply Qltb_true in Hlt. lra.
Qed.

Lemma Bar_init_keeps_input_witness :
  notes (mkBar 3 4 [mkNote (1#4) (VNum 0) 0 0 96;
                    mkNote (3 / 4 - (0 + (1#4))) VNone 0 0 80])
  = [mkNote (1#4) (VNum 0) 0 0 96]
  \/ exists pad,
      notes (mkBar 3 4 [mkNote (1#4) (VNum 0) 0 0 96;
                        mkNote (3 / 4 - (0 + (1#4))) VNone 0 0 80])
      = [mkNote (1#4) (VNum 0) 0 0 96] ++ [pad]
      /\ tone pad = VNone /\ (0 < duration pad)%Q
      /\ octave pad = 0%Z /\ sign pad = 0%Q
      /\ dynamic pad = Dynamic.val Dynamic.mf.
Proof.
  apply (Bar_init_keeps_input [mkNote (1#4) (VNum 0) 0 0 96] 3 4
           (mkBar 3 4 [mkNote (1#4) (VNum 0) 0 0 96;
                       mkNote (3 / 4 - (0 + (1#4))) VNone 0 0 80])).
  reflexivity.
Defined.

Lemma fits_app (bt : Q) (l1 l2 : list Note) (tot : Q) :
  fits bt (l1 ++ l2) tot = fits bt l1 tot && fits bt l2 (runningTotal l1 tot).
Proof.
  revert tot. induction l1 as [|n l1 IH]; intros tot; simpl.
  - reflexivity.
  - now rewrite IH, andb_assoc.
Qed.

(** ** [Note.__init__] *)

Example Note_init_truncates_octave :
  Note_init (VNum 1) VNone (VNum (19 # 10)) 0 80 = Ok (mkNote 1 VNone 1 0 80)
  /\ Note_init (VNum 1) VNone (VNum (- (19 # 10))) 0 80
     = Ok (mkNote 1 VNone (-1) 0 80).
Proof. split; reflexivity. Qed.

(** ** [Composition.convertToWaveData]: the output as a whole *)

Lemma mapM_inv {A B : Type} (f : A -> result B) (l : list A) (bs : list B) :
  mapM f l = Ok bs -> Forall2 (fun a b => f a = Ok b) l bs.
Proof.
  revert bs. induction l as [|a l IH]; intros bs; simpl.
  - intros E. injection E as <-. constructor.
  - destruct (f a) as [b|e] eqn:Ha; simpl; [|discriminate].
    destruct (mapM f l) as [bs'|e]; simpl; [|discriminate].
    intros E. injection E as <-. constructor; [exact Ha | now apply IH].
Qed.

Lemma mapM_app {A B : Type} (f : A -> result B) (l1 l2 : list A) :
  mapM f (l1 ++ l2)
  = (bs1 <- mapM f l1 ;; bs2 <- mapM f l2 ;; Ok (bs1 ++ bs2)).
Proof.
  induction l1 as [|a l1 IH]; simpl.
  - now destruct (mapM f l2).
  - destruct (f a); simpl; [|reflexivity].
    rewrite IH. destruct (mapM f l1); simpl; [|reflexivity].
    now destruct (mapM f l2).
Qed.

(** X9.  When [convertToWaveData] returns, its output has exactly one chunk
    per note, in the order bars and notes appear, and each chunk is the
    rendering of its own note with its own bar's divisor: nothing is
    dropped, merged or reordered. *)
Theorem convertToWaveData_per_note
    (self : Composition) (bitRate : Z) (waveData : list (list Z)) :
  convertToWaveData self bitRate = Ok waveData ->
  Forall2 (fun bn chunk =>
             render_note bitRate (bpm self / 60) (fst bn) (snd bn) = Ok chunk)
          (score self) waveData
  /\ length waveData = length (score self).
Proof.
  unfold convertToWaveData.
  destruct (mapM _ (bars self)) as [css|e] eqn:E; simpl; [|discriminate].
  intros H. injection H as <-.
  assert (HF : Forall2 (fun bn chunk =>
                          render_note bitRate (bpm self / 60) (fst bn) (snd bn)
                          = Ok chunk)
                       (score self) (List.concat css)).
  { apply Forall2_score. apply mapM_inv in E.
    induction E as [|bar cs bs css' Hhd _ IH]; constructor; [|exact IH].
    now apply mapM_inv in Hhd. }
  split; [exact HF|]. symmetry. eapply Forall2_length, HF.
Qed.

Lemma convertToWaveData_per_note_witness :
  length [repeat 128%Z (Z.to_nat 88200)]
  = length (score (Composition_init [mkBar 4 4 [mkNote 1 VNone 0 0 80]] 120)).
Proof.
  apply (convertToWaveData_per_note
           (Composition_init [mkBar 4 4 [mkNote 1 VNone 0 0 80]] 120) 44100
           [repeat 128%Z (Z.to_nat 88200)]).
  unfold convertToWaveData, Composition_init. cbn [bpm bars mapM notes].
  rewrite render_note_rest_chunk by (reflexivity || discriminate).
  reflexivity.
Defined.

(** X10.  Rendering distributes over the concatenation of bar lists: the
    wave data of [bars1 ++ bars2] is the wave data of [bars1] followed by
    that of [bars2], and the first exception met in that order is the one
    raised. *)
Theorem convertToWaveData_app
    (bars1 bars2 : list Bar) (bpm_ : Q) (bitRate : Z) :
  convertToWaveData (Composition_init (bars1 ++ bars2) bpm_) bitRate
  = (w1 <- convertToWaveData (Composition_init bars1 bpm_) bitRate ;;
     w2 <- convertToWaveData (Composition_init bars2 bpm_) bitRate ;;
     Ok (w1 ++ w2)).
Proof.
  unfold convertToWaveData, Composition_init. cbn [bpm bars].
  rewrite mapM_app.
  destruct (mapM _ bars1) as [c1|e]; simpl; [|reflexivity].
  destruct (mapM _ bars2) as [c2|e]; simpl; [|reflexivity].
  now rewrite concat_app.
Qed.

Lemma render_note_bps_zero (bitRate : Z) (bps : Q) (bar : Bar) (note : Note) :
  (bps == 0)%Q -> render_note bitRate bps bar note = Raise ZeroDivisionError.
Proof.
  intros H. unfold render_note, float_div.
  apply Qeq_bool_iff in H. now rewrite H.
Qed.

(** X11.  With a tempo of 0 beats per minute [convertToWaveData] raises
    [ZeroDivisionError] as soon as the composition has a note; with no note
    at all (no bars, or only empty bars) it returns the empty list. *)
Theorem convertToWaveData_bpm_zero (self : Composition) (bitRate : Z) :
  (bpm self == 0)%Q ->
  convertToWaveData self bitRate
  = match score self with
    | [] => Ok []
    | _ :: _ => Raise ZeroDivisionError
    end.
Proof.
  intros H.
  assert (Hbps : (bpm self / 60 == 0)%Q) by (rewrite H; reflexivity).
  unfold convertToWaveData, score.
  induction (bars self) as [|bar bs IH]; simpl.
  - reflexivity.
  - destruct (notes bar) as [|note ns]; simpl.
    + destruct (mapM _ bs) as [css|e]; simpl in *.
      * destruct (flat_map _ bs); [|discriminate].
        injection IH as IH. now rewrite IH.
      * destruct (flat_map _ bs); [discriminate|]. exact IH.
    + now rewrite (render_note_bps_zero bitRate _ bar note Hbps).
Qed.

Lemma convertToWaveData_bpm_zero_witness :
  convertToWaveData
    (Composition_init [mkBar 4 4 []; mkBar 4 4 [mkNote 1 VNone 0 0 80]] 0)
    44100
  = Raise ZeroDivisionError.
Proof.
  apply (convertToWaveData_bpm_zero
           (Composition_init
              [mkBar 4 4 []; mkBar 4 4 [mkNote 1 VNone 0 0 80]] 0) 44100).
  reflexivity.
Defined.

(** ** Samples *)

Lemma chr_range (i s : Z) : chr i = Ok s -> s = i /\ (0 <= s <= 255)%Z.
Proof.
  unfold chr.
  destruct (Z.leb_spec 0 i); destruct (Z.ltb_spec i 256); simpl;
    intros E; try discriminate.
  injection E as <-. lia.
Qed.

Lemma render_note_bytes (bitRate : Z) (bps : Q) (bar : Bar) (note : Note)
    (chunk : list Z) :
  render_note bitRate bps bar note = Ok chunk ->
  Forall (fun s => (0 <= s <= 255)%Z) chunk.
Proof.
  unfold render_note.
  destruct (float_div _ bps) as [d|e]; simpl; [|discriminate].
  destruct (frequency note) as [[freq|]|e]; simpl; [| |discriminate];
    intros E; apply mapM_inv in E;
    induction E as [|x s xs ss Hx _ IH]; constructor; trivial.
  - destruct (frame_at _ _ _ _ x) as [fr|e]; simpl in Hx; [|discriminate].
    now apply chr_range in Hx.
  - now apply chr_range in Hx.
Qed.

(** X12.  Whatever the notes, every sample [convertToWaveData] returns is a
    character code in 0..255: a frame outside that range makes the call
    raise instead. *)
Theorem convertToWaveData_bytes
    (self : Composition) (bitRate : Z) (waveData : list (list Z)) :
  convertToWaveData self bitRate = Ok waveData ->
  Forall (Forall (fun s => (0 <= s <= 255)%Z)) waveData.
Proof.
  unfold convertToWaveData.
  destruct (mapM _ (bars self)) as [css|e] eqn:E; simpl; [|discriminate].
  intros H. injection H as <-. apply mapM_inv in E.
  induction E as [|bar cs bs css' Hhd _ IH]; simpl; [constructor|].
  apply Forall_app. split; [|exact IH].
  apply mapM_inv in Hhd.
  induction Hhd as [|note chunk ns cs' Hn _ IHn]; constructor; trivial.
  now apply render_note_bytes in Hn.
Qed.

Lemma convertToWaveData_bytes_witness :
  Forall (Forall (fun s => (0 <= s <= 255)%Z))
         [repeat 128%Z (Z.to_nat 88200)].
Proof.
  apply (convertToWaveData_bytes
           (Composition_init [mkBar 4 4 [mkNote 1 VNone 0 0 80]] 120) 44100).
  unfold convertToWaveData, Composition_init. cbn [bpm bars mapM notes].
  rewrite render_note_rest_chunk by (reflexivity || discriminate).
  reflexivity.
Defined.

(** ** The fade regions *)

(** X15.  The fade regions: fadingFrames is min(numberOfFrames,
    int(0.01*bitRate)); fadeInFrames and fadeOutFrames add up to it, with
    fadeOutFrames the larger half by at most one; hence the fade-in frames
    [0, fadeIn) and the fade-out frames [n - fadeOut, n) never overlap, and
    the frames at full amplitude between them number n - fadingFrames (none
    when the note is no longer than the fade). *)
Theorem fade_regions (bitRate n : Z) :
  fadingFrames bitRate n = Z.min n (Qtrunc ((1 # 100) * inject_Z bitRate))
  /\ (fadeInFrames bitRate n + fadeOutFrames bitRate n
      = fadingFrames bitRate n)%Z
  /\ (fadeInFrames bitRate n <= fadeOutFrames bitRate n
      <= fadeInFrames bitRate n + 1)%Z
  /\ (fadeInFrames bitRate n <= n - fadeOutFrames bitRate n)%Z
  /\ ((n - fadeOutFrames bitRate n) - fadeInFrames bitRate n
      = n - fadingFrames bitRate n)%Z
  /\ (forall x, ~ ((x < fadeInFrames bitRate n)%Z
                   /\ (n - fadeOutFrames bitRate n <= x)%Z)).
Proof.
  pose proof (fadingFrames_min bitRate n) as Hmin.
  pose proof (fadeOutFrames_ceil bitRate n) as Hout.
  pose proof (fadeInFrames_floor bitRate n) as Hin.
  repeat split; try lia.
Qed.



(** ** Longer inputs *)

(** X20.  Notes appended to a list cannot rescue it: if [Bar.__init__]
    accepts [l ++ l'], it accepts [l] as well; equivalently, once a prefix
    raises, every extension raises. *)
Theorem Bar_init_prefix (l l' : list Note) (beats div : Z) (bar : Bar) :
  Bar_init (l ++ l') beats div = Ok bar ->
  exists bar0, Bar_init l beats div = Ok bar0.
Proof.
  rewrite !Bar_init_eval.
  destruct (div =? 0)%Z; [discriminate|].
  rewrite fits_app.
  destruct (fits _ l 0); simpl; [|discriminate].
  intros _. eexists. reflexivity.
Qed.

Lemma Bar_init_prefix_witness :
  exists bar0, Bar_init [Demo.c; Demo.d_s] 4 4 = Ok bar0.
Proof.
  apply (Bar_init_prefix [Demo.c; Demo.d_s] [Demo.g; Demo.d_s] 4 4
           (mkBar 4 4 [Demo.c; Demo.d_s; Demo.g; Demo.d_s;
                       mkNote (4 / 4 - notesTotal [Demo.c; Demo.d_s;
                                                   Demo.g; Demo.d_s])
                              VNone 0 0 80])).
  reflexivity.
Defined.

Example Demo_bars :
  Bar_init Demo.notes2 4 4 = Ok (mkBar 4 4 Demo.notes2)
  /\ Bar_init Demo.notes3 4 4 = Ok (mkBar 4 4 Demo.notes3).
Proof. split; reflexivity. Qed.

(** * Properties of the binary64 reading *)

Section Binary64.
Local Open Scope float_scope.
#[local] Set Warnings "-inexact-float".

(** ** The error monad *)

Lemma bind_Ok {A B : Type} (m : result A) (k : A -> result B) (b : B) :
  bind m k = Ok b -> exists a, m = Ok a /\ k a = Ok b.
Proof. destruct m as [a|e]; simpl; [eauto | discriminate]. Qed.

Lemma bind_Raise {A B : Type} (m : result A) (k : A -> result B) (e : exn) :
  bind m k = Raise e -> m = Raise e \/ exists a, m = Ok a /\ k a = Raise e.
Proof.
  destruct m as [a|e']; simpl; intros H; [right; eauto | left; congruence].
Qed.

Lemma mapM_Raise {A B : Type} (f : A -> result B) (l : list A) (e : exn) :
  mapM f l = Raise e -> exists a, In a l /\ f a = Raise e.
Proof.
  induction l as [|a l IH]; simpl; [discriminate|].
  destruct (f a) as [b|e'] eqn:Ha; simpl.
  - destruct (mapM f l) as [bs|e'']; simpl; [discriminate|].
    intros H. destruct (IH H) as (a' & Hin & Ha'). eauto.
  - intros H. exists a. split; [now left | congruence].
Qed.

Lemma mapM_length {A B : Type} (f : A -> result B) (l : list A) (bs : list B) :
  mapM f l = Ok bs -> length bs = length l.
Proof.
  intros H. apply mapM_inv in H. symmetry. exact (Forall2_length H).
Qed.

(** ** Conversions *)

Lemma float_of_int_Ok (z : Z) (f : float) :
  F64.float_of_int z = Ok f -> f = F64.float_of_Z z.
Proof.
  unfold F64.float_of_int. destruct (is_infinity (F64.float_of_Z z)); congruence.
Qed.

Lemma float_of_int_Raise (z : Z) (e : exn) :
  F64.float_of_int z = Raise e -> e = OverflowError.
Proof.
  unfold F64.float_of_int. destruct (is_infinity (F64.float_of_Z z)); congruence.
Qed.

Lemma int_of_float_Raise (f : float) (e : exn) :
  F64.int_of_float f = Raise e -> e = OverflowError \/ e = ValueError.
Proof.
  unfold F64.int_of_float. destruct (Prim2SF f); intros H;
    try discriminate; injection H as <-; auto.
Qed.

Lemma to_double_Raise (v : F64.pyval) (e : exn) :
  F64.to_double v = Raise e -> e = TypeError \/ e = OverflowError.
Proof.
  destruct v; simpl; intros H; try (injection H as <-; auto; fail);
    try discriminate.
  right. exact (float_of_int_Raise z e H).
Qed.

Lemma py_add_Raise (a b : F64.pyval) (e : exn) :
  F64.py_add a b = Raise e -> e = TypeError \/ e = OverflowError.
Proof.
  destruct a, b; simpl; intros H;
    try (injection H as <-; auto; fail); try discriminate.
  - destruct (F64.float_of_int z) eqn:E; simpl in H; [discriminate|].
    injection H as <-. right. exact (float_of_int_Raise z e0 E).
  - destruct (F64.float_of_int z) eqn:E; simpl in H; [discriminate|].
    injection H as <-. right. exact (float_of_int_Raise z e0 E).
Qed.

Lemma div_float_int_Raise (a : float) (b : Z) (e : exn) :
  F64.div_float_int a b = Raise e ->
  (e = ZeroDivisionError /\ b = 0%Z) \/ (e = OverflowError /\ b <> 0%Z).
Proof.
  unfold F64.div_float_int. destruct (Z.eqb_spec b 0) as [->|Hb]; intros H.
  - injection H as <-. now left.
  - destruct (F64.float_of_int b) eqn:E; simpl in H; [discriminate|].
    injection H as <-. right. split; [|exact Hb].
    exact (float_of_int_Raise b e0 E).
Qed.

Lemma div_float_int_Ok (a : float) (b : Z) (q : float) :
  F64.div_float_int a b = Ok q -> b <> 0%Z /\ q = a / F64.float_of_Z b.
Proof.
  unfold F64.div_float_int. destruct (Z.eqb_spec b 0) as [->|Hb]; [discriminate|].
  intros H. apply bind_Ok in H. destruct H as (b' & Hb' & H).
  apply float_of_int_Ok in Hb'. injection H as <-. subst b'. now split.
Qed.

Lemma chr_Ok (i s : Z) : F64.chr i = Ok s -> s = i /\ (0 <= s <= 255)%Z.
Proof.
  unfold F64.chr.
  destruct ((i <? - F64.maxint - 1) || (F64.maxint <? i))%Z; [discriminate|].
  destruct ((0 <=? i) && (i <? 256))%Z eqn:E; [|discriminate].
  intros H. injection H as <-. split; [reflexivity | lia].
Qed.

Lemma chr_Raise (i : Z) (e : exn) :
  F64.chr i = Raise e -> e = OverflowError \/ e = ValueError.
Proof.
  unfold F64.chr.
  destruct ((i <? - F64.maxint - 1) || (F64.maxint <? i))%Z;
    [intros H; injection H as <-; auto|].
  destruct ((0 <=? i) && (i <? 256))%Z; [discriminate|].
  intros H; injection H as <-; auto.
Qed.

Lemma xrange_Ok (n : Z) (xs : list Z) :
  F64.xrange n = Ok xs -> xs = xrange n.
Proof.
  unfold F64.xrange.
  destruct ((n <? - F64.maxint - 1) || (F64.maxint <? n))%Z; [discriminate|].
  intros H. injection H as <-. reflexivity.
Qed.

Lemma xrange_Raise (n : Z) (e : exn) :
  F64.xrange n = Raise e -> e = OverflowError.
Proof.
  unfold F64.xrange.
  destruct ((n <? - F64.maxint - 1) || (F64.maxint <? n))%Z; [|discriminate].
  intros H. now injection H as <-.
Qed.


(** ** [Note.__init__] *)

(** C9 (as the code behaves).  [Note.__init__] validates nothing.  A float
    duration, whatever its sign, is stored as it is; an int duration is
    stored as the nearest float, and is refused with [OverflowError] when
    that is beyond binary64; and the only exceptions it can raise are the
    [TypeError], [OverflowError] and [ValueError] of [float()] and [int()]:
    there is no condition for an invalid duration. *)
Theorem Note_init_no_validation (tone_ sign_ dynamic_ : F64.pyval) (o : Z) :
  (forall d : float,
      F64.Note_init (F64.PFloat d) tone_ (F64.PInt o) sign_ dynamic_
      = Ok (F64.mkNote d tone_ o sign_ dynamic_))
  /\ (forall z : Z,
      F64.Note_init (F64.PInt z) tone_ (F64.PInt o) sign_ dynamic_
      = if is_infinity (F64.float_of_Z z) then Raise OverflowError
        else Ok (F64.mkNote (F64.float_of_Z z) tone_ o sign_ dynamic_))
  /\ (forall dur oct : F64.pyval,
      match F64.Note_init dur tone_ oct sign_ dynamic_ with
      | Ok n => F64.py_float dur = Ok (F64.duration n)
      | Raise e => e = TypeError \/ e = OverflowError \/ e = ValueError
      end).
Proof.
  split; [|split].
  - intros d. reflexivity.
  - intros z. unfold F64.Note_init, F64.py_float, F64.to_double, F64.float_of_int.
    now destruct (is_infinity (F64.float_of_Z z)).
  - intros dur oct. unfold F64.Note_init, F64.py_float.
    destruct (F64.to_double dur) as [d|e] eqn:Ed; simpl.
    + destruct oct; simpl; auto.
      destruct (F64.int_of_float f) as [n|e] eqn:En; simpl; [reflexivity|].
      destruct (int_of_float_Raise f e En) as [-> | ->]; auto.
    + destruct (to_double_Raise dur e Ed) as [-> | ->]; auto.
Qed.

Example Note_init_negative_binary64 :
  F64.Note_rest (F64.PFloat (-1))
  = Ok (F64.rest (-1))
  /\ F64.Note_rest (F64.PInt 0)
     = Ok (F64.rest 0)
  /\ F64.Note_rest (F64.PInt (- 10 ^ 400)) = Raise OverflowError
  /\ F64.Note_rest F64.PNone = Raise TypeError.
Proof. repeat split; vm_compute; reflexivity. Qed.

Example Note_init_octave_binary64 :
  F64.Note_init (F64.PFloat 1) F64.PNone (F64.PFloat (-1.5)) (F64.PInt 0)
                (F64.PDynamic Dynamic.mf)
  = Ok (F64.mkNote 1 F64.PNone (-1) (F64.PInt 0) (F64.PDynamic Dynamic.mf))
  /\ F64.Note_init (F64.PFloat 1) F64.PNone (F64.PFloat infinity) (F64.PInt 0)
                   (F64.PDynamic Dynamic.mf) = Raise OverflowError
  /\ F64.Note_init (F64.PFloat 1) F64.PNone (F64.PFloat nan) (F64.PInt 0)
                   (F64.PDynamic Dynamic.mf) = Raise ValueError.
Proof. repeat split; vm_compute; reflexivity. Qed.

(** ** [Note.frequency] *)

Lemma twelve_nonzero : (12 =? 0) = false.
Proof. reflexivity. Qed.

Lemma frequency_unfold (L : F64.libm) (d : float) (t : F64.pyval) (o : Z)
    (s dyn : F64.pyval) :
  t <> F64.PNone ->
  F64.frequency L (F64.mkNote d t o s dyn)
  = (a <- F64.py_add (F64.PInt (o * 12)) t ;;
     b <- F64.py_add a s ;;
     n <- F64.to_double b ;;
     p <- F64.math_pow L 2 (n / 12) ;;
     Ok (Some (440 * p))).
Proof.
  intros Ht. unfold F64.frequency, F64.div_float. rewrite twelve_nonzero.
  cbn [F64.tone F64.octave F64.sign].
  destruct t; try reflexivity. now elim Ht.
Qed.

(** C3 (as the code behaves).  For a pitched note whose tone and accidental
    are numbers, [frequency] is [440*math.pow(2, e/12.0)] in binary64, with
    [e] the sum [octave*12+tone+sign] taken left to right (an int while the
    summands are ints, a float from the first float summand on); whatever
    raises on the way is raised.  Where [math.pow(2.0, 0.0)] is [1.0], tone
    0 (C) in octave 0 without accidental gives exactly [440.0].  A tone
    that is a member of [Tone] raises [TypeError]; a note without tone has
    no frequency. *)
Theorem frequency_binary64 (L : F64.libm) (d : float) (o : Z)
    (dyn : F64.pyval) (Hpow : F64.math_pow L 2 0 = Ok 1) :
  (forall t s : Z,
      F64.frequency L (F64.mkNote d (F64.PInt t) o (F64.PInt s) dyn)
      = (e <- F64.float_of_int (o * 12 + t + s) ;;
         p <- F64.math_pow L 2 (e / 12) ;;
         Ok (Some (440 * p))))
  /\ (forall (t : Z) (s : float),
      F64.frequency L (F64.mkNote d (F64.PInt t) o (F64.PFloat s) dyn)
      = (e <- F64.float_of_int (o * 12 + t) ;;
         p <- F64.math_pow L 2 ((e + s) / 12) ;;
         Ok (Some (440 * p))))
  /\ (forall (t : float) (s : Z),
      F64.frequency L (F64.mkNote d (F64.PFloat t) o (F64.PInt s) dyn)
      = (e <- F64.float_of_int (o * 12) ;;
         s' <- F64.float_of_int s ;;
         p <- F64.math_pow L 2 ((e + t + s') / 12) ;;
         Ok (Some (440 * p))))
  /\ (forall t s : float,
      F64.frequency L (F64.mkNote d (F64.PFloat t) o (F64.PFloat s) dyn)
      = (e <- F64.float_of_int (o * 12) ;;
         p <- F64.math_pow L 2 ((e + t + s) / 12) ;;
         Ok (Some (440 * p))))
  /\ F64.frequency L
       (F64.mkNote d (F64.Tone_value Tone.C) 0 (F64.PInt 0) dyn)
     = Ok (Some 440)
  /\ (forall (t : Tone.t) (s : F64.pyval),
      F64.frequency L (F64.mkNote d (F64.PTone t) o s dyn) = Raise TypeError)
  /\ (forall s : F64.pyval,
      F64.frequency L (F64.mkNote d F64.PNone o s dyn) = Ok None).
Proof.
  cbn [F64.Tone_value].
  split; [|split; [|split; [|split; [|split; [|split]]]]];
    [..|intros t s; reflexivity|intros s; reflexivity].
  - intros t s. rewrite frequency_unfold by discriminate. reflexivity.
  - intros t s. rewrite frequency_unfold by discriminate.
    cbn [F64.py_add bind].
    destruct (F64.float_of_int (o * 12 + t)); reflexivity.
  - intros t s. rewrite frequency_unfold by discriminate.
    cbn [F64.py_add bind].
    destruct (F64.float_of_int (o * 12)); cbn [bind F64.py_add]; [|reflexivity].
    destruct (F64.float_of_int s); reflexivity.
  - intros t s. rewrite frequency_unfold by discriminate.
    cbn [F64.py_add bind].
    destruct (F64.float_of_int (o * 12)); reflexivity.
  - rewrite frequency_unfold by discriminate.
    change (F64.py_add (F64.PInt (0 * 12)) (F64.PInt 0)) with (Ok (F64.PInt 0)).
    cbn [bind].
    change (F64.py_add (F64.PInt 0) (F64.PInt 0)) with (Ok (F64.PInt 0)).
    cbn [bind].
    change (F64.to_double (F64.PInt 0)) with (@Ok float 0).
    cbn [bind].
    change (0 / 12) with 0. rewrite Hpow. reflexivity.
Qed.

Lemma frequency_binary64_witness :
  F64.math_pow F64.recorded 2 0 = Ok 1
  /\ F64.frequency F64.recorded
       (F64.mkNote 1 (F64.Tone_value Tone.C) 0 (F64.PInt 0) (F64.PInt 96))
     = Ok (Some 440).
Proof.
  assert (H : F64.math_pow F64.recorded 2 0 = Ok 1) by reflexivity.
  split; [exact H|].
  exact (proj1 (proj2 (proj2 (proj2 (proj2
           (frequency_binary64 F64.recorded 1 0 (F64.PInt 96) H)))))).
Defined.

(** C3, as worded, fails.  With the value the C library returns for
    [pow(2.0, 0.75)], A (semitone 9) in octave 0 without accidental sounds
    at 739.9888454232688, not 440.  And there are error conditions, on any
    platform: a tone given as the member [Tone.A] raises [TypeError], an
    octave whose exponent does not fit a float raises [OverflowError]; with
    the C library's overflow and underflow, octave 1024 raises
    [OverflowError] and octave -2000 gives 0.0, which is not positive. *)
Lemma frequency_claim_fails :
  F64.frequency F64.recorded
    (F64.mkNote 1 (F64.Tone_value Tone.A) 0 (F64.PInt 0) (F64.PInt 80))
  = Ok (Some 739.9888454232688)
  /\ (739.9888454232688 =? 440) = false
  /\ (forall L : F64.libm,
        F64.frequency L
          (F64.mkNote 1 (F64.PTone Tone.A) 0 (F64.PInt 0)
                      (F64.PDynamic Dynamic.mf))
        = Raise TypeError)
  /\ (forall L : F64.libm,
        F64.frequency L
          (F64.mkNote 1 (F64.Tone_value Tone.A) (10 ^ 400) (F64.PInt 0)
                      (F64.PInt 80))
        = Raise OverflowError)
  /\ F64.frequency F64.recorded
       (F64.mkNote 1 (F64.Tone_value Tone.C) 1024 (F64.PInt 0) (F64.PInt 80))
     = Raise OverflowError
  /\ F64.frequency F64.recorded
       (F64.mkNote 1 (F64.Tone_value Tone.C) (-2000) (F64.PInt 0)
                   (F64.PInt 80))
     = Ok (Some 0)
  /\ (0 <? 0) = false.
Proof.
  split; [vm_compute; reflexivity|].
  split; [reflexivity|].
  split; [intros L; reflexivity|].
  split; [intros L; vm_compute; reflexivity|].
  split; [vm_compute; reflexivity|].
  split; [vm_compute; reflexivity|reflexivity].
Qed.


(** *** Octaves *)

(** The integers from [lo], [len] of them. *)
Lemma In_interval (lo : Z) (len : nat) (z : Z) :
  (lo <= z < lo + Z.of_nat len)%Z ->
  In z (map (fun k => (lo + Z.of_nat k)%Z) (seq 0 len)).
Proof.
  intros H. apply in_map_iff. exists (Z.to_nat (z - lo)). split; [lia|].
  apply in_seq. lia.
Qed.

(** At an integer exponent of this range the exponent of [frequency] is
    the octave itself: [float(o*12)/12.0 == float(o)]. *)
Lemma exponent_of_C (o : Z) :
  (-1074 <= o <= 1023)%Z ->
  F64.float_of_int (o * 12 + 0 + 0) = Ok (F64.float_of_Z (o * 12 + 0 + 0))
  /\ F64.float_of_Z (o * 12 + 0 + 0) / 12 = F64.float_of_Z o.
Proof.
  intros Ho.
  pose (check := fun o : Z =>
          negb (is_infinity (F64.float_of_Z (o * 12 + 0 + 0)))
          && Leibniz.eqb (F64.float_of_Z (o * 12 + 0 + 0) / 12)
                         (F64.float_of_Z o)).
  assert (Hall : forallb check
                   (map (fun k => (-1074 + Z.of_nat k)%Z) (seq 0 2098)) = true)
    by (vm_compute; reflexivity).
  rewrite forallb_forall in Hall.
  specialize (Hall o (In_interval (-1074) 2098 o ltac:(lia))).
  unfold check in Hall. apply andb_true_iff in Hall. destruct Hall as [H1 H2].
  apply negb_true_iff in H1. apply Leibniz.eqb_spec in H2.
  unfold F64.float_of_int. rewrite H1. now split.
Qed.

(** Doubling 440 times a power of two is exact, infinities included. *)
Lemma double_of_C (o : Z) :
  (-1074 <= o <= 1022)%Z ->
  440 * Z.ldexp 1 (o + 1) = 2 * (440 * Z.ldexp 1 o).
Proof.
  intros Ho.
  pose (check := fun o : Z =>
          Leibniz.eqb (440 * Z.ldexp 1 (o + 1)) (2 * (440 * Z.ldexp 1 o))).
  assert (Hall : forallb check
                   (map (fun k => (-1074 + Z.of_nat k)%Z) (seq 0 2097)) = true)
    by (vm_compute; reflexivity).
  rewrite forallb_forall in Hall.
  specialize (Hall o (In_interval (-1074) 2097 o ltac:(lia))).
  now apply Leibniz.eqb_spec in Hall.
Qed.

Lemma frequency_of_C (L : F64.libm)
    (Hpow : forall n : Z, (-1074 <= n <= 1023)%Z ->
              F64.math_pow L 2 (F64.float_of_Z n) = Ok (Z.ldexp 1 n))
    (o : Z) (d : float) (dyn : F64.pyval) :
  (-1074 <= o <= 1023)%Z ->
  F64.frequency L (F64.mkNote d (F64.PInt 0) o (F64.PInt 0) dyn)
  = Ok (Some (440 * Z.ldexp 1 o)).
Proof.
  intros Ho. rewrite frequency_unfold by discriminate.
  cbn [F64.py_add bind F64.to_double].
  destruct (exponent_of_C o Ho) as [H1 H2].
  rewrite H1. cbn [bind]. rewrite H2, (Hpow o Ho). reflexivity.
Qed.

(** C8 (as the code behaves).  For tone C (semitone 0) without accidental
    the exponent is the octave itself, and where [math.pow] is exact at the
    integer powers of two, raising the octave by one doubles the frequency
    exactly, for every octave from -1074 to 1022. *)
Theorem frequency_octave_doubling_C (L : F64.libm)
    (Hpow : forall n : Z, (-1074 <= n <= 1023)%Z ->
              F64.math_pow L 2 (F64.float_of_Z n) = Ok (Z.ldexp 1 n))
    (o : Z) (d d' : float) (dyn dyn' : F64.pyval)
    (Ho : (-1074 <= o <= 1022)%Z) :
  exists f : float,
    F64.frequency L (F64.mkNote d (F64.Tone_value Tone.C) o (F64.PInt 0) dyn)
    = Ok (Some f)
    /\ F64.frequency L
         (F64.mkNote d' (F64.Tone_value Tone.C) (o + 1) (F64.PInt 0) dyn')
       = Ok (Some (2 * f)).
Proof.
  cbn [F64.Tone_value].
  exists (440 * Z.ldexp 1 o). split.
  - apply (frequency_of_C L Hpow). lia.
  - rewrite <- (double_of_C o Ho). apply (frequency_of_C L Hpow). lia.
Qed.

Lemma recorded_pow_exact (n : Z) :
  (-1074 <= n <= 1023)%Z ->
  F64.math_pow F64.recorded 2 (F64.float_of_Z n) = Ok (Z.ldexp 1 n).
Proof.
  intros Hn.
  pose (check := fun n : Z =>
          match F64.math_pow F64.recorded 2 (F64.float_of_Z n) with
          | Ok v => Leibniz.eqb v (Z.ldexp 1 n)
          | Raise _ => false
          end).
  assert (Hall : forallb check
                   (map (fun k => (-1074 + Z.of_nat k)%Z) (seq 0 2098)) = true)
    by (vm_compute; reflexivity).
  rewrite forallb_forall in Hall.
  specialize (Hall n (In_interval (-1074) 2098 n ltac:(lia))).
  unfold check in Hall.
  destruct (F64.math_pow F64.recorded 2 (F64.float_of_Z n)); [|discriminate].
  apply Leibniz.eqb_spec in Hall. now subst.
Qed.

Lemma frequency_octave_doubling_C_witness :
  exists f : float,
    F64.frequency F64.recorded
      (F64.mkNote 1 (F64.Tone_value Tone.C) (-1) (F64.PInt 0) (F64.PInt 96))
    = Ok (Some f)
    /\ F64.frequency F64.recorded
         (F64.mkNote 1 (F64.Tone_value Tone.C) (-1 + 1) (F64.PInt 0)
                     (F64.PInt 96))
       = Ok (Some (2 * f)).
Proof.
  apply (frequency_octave_doubling_C F64.recorded recorded_pow_exact).
  lia.
Defined.

(** C8, as worded, fails.  With the values the C library returns for
    [pow(2.0, 14/12.0)] and [pow(2.0, 26/12.0)], D in octave 2 sounds at
    1975.533205024496 and twice D in octave 1 is 1975.5332050244965.  On
    any platform, a tone given as the member [Tone.D] raises [TypeError]
    in every octave, and an octave whose exponent does not fit a float
    raises [OverflowError]. *)
Lemma octave_doubling_fails :
  F64.frequency F64.recorded
    (F64.mkNote 1 (F64.Tone_value Tone.D) 1 (F64.PInt 0) (F64.PInt 80))
  = Ok (Some 987.7666025122483)
  /\ F64.frequency F64.recorded
       (F64.mkNote 1 (F64.Tone_value Tone.D) (1 + 1) (F64.PInt 0)
                   (F64.PInt 80))
     = Ok (Some 1975.533205024496)
  /\ 2 * 987.7666025122483 = 1975.5332050244965
  /\ (1975.533205024496 =? 1975.5332050244965) = false
  /\ (forall (L : F64.libm) (o : Z),
        F64.frequency L
          (F64.mkNote 1 (F64.PTone Tone.D) o (F64.PInt 0)
                      (F64.PDynamic Dynamic.mf))
        = Raise TypeError)
  /\ (forall L : F64.libm,
        F64.frequency L
          (F64.mkNote 1 (F64.Tone_value Tone.D) (10 ^ 400) (F64.PInt 0)
                      (F64.PInt 80))
        = Raise OverflowError).
Proof.
  split; [vm_compute; reflexivity|].
  split; [vm_compute; reflexivity|].
  split; [reflexivity|].
  split; [reflexivity|].
  split; [intros L o; reflexivity|].
  intros L; vm_compute; reflexivity.
Qed.


(** ** [Bar.__init__] *)

Lemma eqb_not_ltb (a b : float) : (a =? b) = true -> (a <? b) = false.
Proof.
  rewrite eqb_spec, ltb_spec. unfold SFeqb, SFltb.
  destruct (SFcompare (Prim2SF a) (Prim2SF b)) as [[]|]; congruence.
Qed.

Lemma Bar_loop_fits_binary64 (bt : float) (l acc : list F64.Note)
    (tot : float) :
  F64.fits bt l tot = true ->
  F64.Bar_loop bt l acc tot = Ok (acc ++ l, F64.runningTotal l tot).
Proof.
  revert acc tot. induction l as [|n l IH]; intros acc tot H; simpl.
  - now rewrite app_nil_r.
  - simpl in H. apply andb_true_iff in H. destruct H as [H1 H2].
    apply negb_true_iff in H1. rewrite H1, (IH _ _ H2), <- app_assoc.
    reflexivity.
Qed.

Lemma Bar_loop_closed (bt : float) (l acc : list F64.Note) (tot : float) :
  F64.Bar_loop bt l acc tot
  = if F64.fits bt l tot then Ok (acc ++ l, F64.runningTotal l tot)
    else Raise AttributeError.
Proof.
  revert acc tot. induction l as [|n l IH]; intros acc tot; simpl.
  - now rewrite app_nil_r.
  - destruct (bt <? tot + F64.duration n); simpl; [reflexivity|].
    rewrite IH, <- app_assoc. reflexivity.
Qed.

Lemma barTotal_Raise (beats div : Z) (e : exn) :
  F64.barTotal beats div = Raise e ->
  (e = ZeroDivisionError /\ div = 0%Z) \/ e = OverflowError.
Proof.
  unfold F64.barTotal. intros H. apply bind_Raise in H.
  destruct H as [H | (nb & _ & H)].
  - right. exact (float_of_int_Raise _ _ H).
  - apply div_float_int_Raise in H. destruct H as [[-> ->] | [-> _]]; auto.
Qed.

(** X1.  The outcomes of [Bar.__init__], in binary64.  Once
    [barTotalDuration = float(numberOfBeats)/divisor] is computed, the
    constructor raises [AttributeError] if some note pushes the running
    total over it, and otherwise returns the input notes, followed by one
    rest when the total ends below it.  Computing [barTotalDuration] fails
    with [ZeroDivisionError] only for the divisor 0 and otherwise only with
    the [OverflowError] of converting an int that is beyond binary64. *)
Theorem Bar_init_outcomes_binary64 (notes_ : list F64.Note) (beats div : Z) :
  F64.Bar_init notes_ beats div
  = (bt <- F64.barTotal beats div ;;
     if F64.fits bt notes_ 0 then
       Ok (F64.mkBar beats div
             (if F64.runningTotal notes_ 0 <? bt
              then notes_ ++ [F64.mkNote (bt - F64.runningTotal notes_ 0)
                                         F64.PNone 0 (F64.PInt 0)
                                         (F64.PDynamic Dynamic.mf)]
              else notes_))
     else Raise AttributeError)
  /\ match F64.barTotal beats div with
     | Ok bt => div <> 0%Z
     | Raise e => (e = ZeroDivisionError /\ div = 0%Z) \/ e = OverflowError
     end.
Proof.
  split.
  - unfold F64.Bar_init.
    destruct (F64.barTotal beats div) as [bt|e]; [|reflexivity]. cbn [bind].
    rewrite Bar_loop_closed.
    destruct (F64.fits bt notes_ 0); [|reflexivity]. cbn [bind app].
    destruct (F64.runningTotal notes_ 0 <? bt); reflexivity.
  - destruct (F64.barTotal beats div) as [bt|e] eqn:E.
    + unfold F64.barTotal in E. apply bind_Ok in E.
      destruct E as (nb & _ & E). apply div_float_int_Ok in E. tauto.
    + exact (barTotal_Raise beats div e E).
Qed.

(** C6 (as the code behaves).  When no note pushes the running total over
    [barTotalDuration = float(numberOfBeats)/divisor]: if the total ends
    strictly below it, the bar is the input followed by one rest whose
    duration is the binary64 difference
    [barTotalDuration - notesTotalDuration]; if the total ends equal to it,
    the bar is the input, with no padding and no clipping. *)
Theorem Bar_init_padding_binary64 (notes_ : list F64.Note) (beats div : Z)
    (bt : float)
    (Hbt : F64.barTotal beats div = Ok bt)
    (Hfits : F64.fits bt notes_ 0 = true) :
  ((F64.runningTotal notes_ 0 <? bt) = true ->
   F64.Bar_init notes_ beats div
   = Ok (F64.mkBar beats div
           (notes_ ++ [F64.mkNote (bt - F64.runningTotal notes_ 0)
                                  F64.PNone 0 (F64.PInt 0)
                                  (F64.PDynamic Dynamic.mf)])))
  /\ ((F64.runningTotal notes_ 0 =? bt) = true ->
      F64.Bar_init notes_ beats div = Ok (F64.mkBar beats div notes_)).
Proof.
  unfold F64.Bar_init. rewrite Hbt. cbn [bind].
  rewrite (Bar_loop_fits_binary64 bt notes_ [] 0 Hfits). cbn [bind app].
  split; intros H.
  - rewrite H. reflexivity.
  - rewrite (eqb_not_ltb _ _ H). reflexivity.
Qed.

Lemma Bar_init_padding_binary64_witness :
  F64.barTotal 2 3 = Ok 0.6666666666666666
  /\ F64.Bar_init [F64.rest (1 / 7)] 2 3
     = Ok (F64.mkBar 2 3
             [F64.rest (1 / 7); F64.rest 0.5238095238095237]).
Proof.
  assert (Hbt : F64.barTotal 2 3 = Ok 0.6666666666666666)
    by (vm_compute; reflexivity).
  split; [exact Hbt|].
  exact (proj1 (Bar_init_padding_binary64 [F64.rest (1 / 7)] 2 3
                  0.6666666666666666 Hbt eq_refl) eq_refl).
Defined.

Example Bar_init_empty_binary64 :
  F64.Bar_init [] 3 4
  = Ok (F64.mkBar 3 4 [F64.rest 0.75]).
Proof. vm_compute. reflexivity. Qed.

(** C6, as worded, fails.  In [Bar([Note(1/7.0)], 2, 3)] the bar lasts
    0.6666666666666666 and the note 0.14285714285714285; the rest that is
    appended lasts 0.5238095238095237, and the two durations sum to
    0.6666666666666665: the gap is not closed exactly.  And a list can sum
    to less than the bar and still not be padded: in
    [Bar([Note(1.0), Note(-0.75)], 1, 2)] the durations sum to 0.25, the
    first note overflows the bar and the clipping branch raises. *)
Lemma padding_gap_not_closed :
  F64.barTotal 2 3 = Ok 0.6666666666666666
  /\ F64.Bar_init [F64.rest (1 / 7)] 2 3
     = Ok (F64.mkBar 2 3
             [F64.rest 0.14285714285714285; F64.rest 0.5238095238095237])
  /\ 0 + 0.14285714285714285 + 0.5238095238095237 = 0.6666666666666665
  /\ (0.6666666666666665 =? 0.6666666666666666) = false
  /\ F64.runningTotal [F64.rest 1; F64.rest (-0.75)] 0 = 0.25
  /\ F64.barTotal 1 2 = Ok 0.5
  /\ F64.Bar_init [F64.rest 1; F64.rest (-0.75)] 1 2 = Raise AttributeError.
Proof. repeat split; vm_compute; reflexivity. Qed.

(** ** [Composition.convertToWaveData] *)

Lemma Forall2_at {A B : Type} (P : A -> B -> Prop) (l : list A)
    (l' : list B) (i : nat) (a : A) (b : B) :
  Forall2 P l l' -> (i < length l)%nat -> P (nth i l a) (nth i l' b).
Proof.
  intros H. revert i. induction H as [|x y l l' Hxy _ IH]; intros i Hi.
  - simpl in Hi. lia.
  - destruct i as [|i]; simpl; [exact Hxy|]. apply IH. simpl in Hi. lia.
Qed.

Lemma xrange_nth_id (n x : Z) :
  (0 <= x < n)%Z -> nth (Z.to_nat x) (xrange n) 0%Z = x.
Proof.
  intros Hx. rewrite <- (map_id (xrange n)).
  exact (xrange_nth (fun z => z) n x 0%Z Hx).
Qed.

Lemma Forall2_flat {A B C : Type} (P : A * B -> C -> Prop)
    (f : A -> list B) (bs : list A) (css : list (list C)) :
  Forall2 (fun a cs => Forall2 (fun b c => P (a, b) c) (f a) cs) bs css ->
  Forall2 P (flat_map (fun a => map (pair a) (f a)) bs) (List.concat css).
Proof.
  induction 1 as [|a cs bs css Hhd _ IH]; simpl.
  - constructor.
  - apply Forall2_app; [|exact IH].
    clear IH. induction Hhd; simpl; constructor; assumption.
Qed.

Lemma Forall2_weaken {A B : Type} (P Q : A -> B -> Prop) (l : list A)
    (l' : list B) :
  (forall a b, P a b -> Q a b) -> Forall2 P l l' -> Forall2 Q l l'.
Proof. intros H. induction 1; constructor; auto. Qed.

Lemma rest_chunk_binary64 (n : Z) :
  mapM (fun _ : Z => F64.chr 128) (xrange n)
  = Ok (repeat 128%Z (Z.to_nat n)).
Proof.
  rewrite (mapM_pointwise _ (fun _ => 128%Z)) by reflexivity.
  now rewrite map_const_repeat, xrange_length.
Qed.

Lemma seconds_Ok (bps : float) (bar : F64.Bar) (note : F64.Note)
    (secs : float) :
  F64.seconds bps bar note = Ok secs ->
  (bps =? 0) = false
  /\ secs = F64.float_of_Z (F64.divisor bar) * F64.duration note / bps.
Proof.
  unfold F64.seconds. intros H. apply bind_Ok in H.
  destruct H as (dv & Hdv & H). apply float_of_int_Ok in Hdv. subst dv.
  unfold F64.div_float in H. destruct (bps =? 0); [discriminate|].
  injection H as <-. now split.
Qed.

Lemma numberOfFrames_Ok (bitRate : Z) (secs : float) (n : Z) :
  F64.numberOfFrames bitRate secs = Ok n ->
  F64.int_of_float (F64.float_of_Z bitRate * secs) = Ok n.
Proof.
  unfold F64.numberOfFrames. intros H. apply bind_Ok in H.
  destruct H as (fb & Hfb & H). apply float_of_int_Ok in Hfb. now subst fb.
Qed.

Lemma fadingFrames_Ok (bitRate n ff : Z) :
  F64.fadingFrames bitRate n = Ok ff ->
  exists ff0 : Z,
    F64.int_of_float (0.01 * F64.float_of_Z bitRate) = Ok ff0
    /\ ff = Z.min n ff0.
Proof.
  unfold F64.fadingFrames. intros H. apply bind_Ok in H.
  destruct H as (fb & Hfb & H). apply float_of_int_Ok in Hfb. subst fb.
  apply bind_Ok in H. destruct H as (ff0 & Hff0 & H).
  exists ff0. split; [exact Hff0|]. injection H as <-.
  destruct (Z.gtb_spec ff0 n); lia.
Qed.

Lemma gain_Ok (amplitude : F64.pyval) (n fadeIn fadeOut x : Z) (g : float) :
  F64.gain amplitude n fadeIn fadeOut x (F64.float_of_Z x) = Ok g ->
  exists a : float,
    F64.to_double amplitude = Ok a /\ g = F64.envelope a n fadeIn fadeOut x.
Proof.
  unfold F64.gain, F64.envelope.
  destruct (x <? fadeIn)%Z; [|destruct (x >=? n - fadeOut)%Z]; intros H.
  - apply bind_Ok in H. destruct H as (r & Hr & H).
    apply div_float_int_Ok in Hr. destruct Hr as [_ ->].
    apply bind_Ok in H. destruct H as (a & Ha & H).
    exists a. split; [exact Ha|]. now injection H as <-.
  - apply bind_Ok in H. destruct H as (k & Hk & H).
    apply float_of_int_Ok in Hk. subst k.
    apply bind_Ok in H. destruct H as (r & Hr & H).
    apply div_float_int_Ok in Hr. destruct Hr as [_ ->].
    apply bind_Ok in H. destruct H as (a & Ha & H).
    exists a. split; [exact Ha|]. now injection H as <-.
  - exists g. now split.
Qed.

Lemma frame_at_Ok (L : F64.libm) (bitRate : Z) (freq : float)
    (amplitude : F64.pyval) (n fadeIn fadeOut x : Z) (frame : float) :
  F64.frame_at L bitRate freq amplitude n fadeIn fadeOut x = Ok frame ->
  exists s a : float,
    F64.math_sin L (F64.float_of_Z x / F64.float_of_Z bitRate * freq
                    * F64.TWO_PI) = Ok s
    /\ F64.to_double amplitude = Ok a
    /\ frame = s * F64.envelope a n fadeIn fadeOut x + 128.
Proof.
  unfold F64.frame_at. intros H.
  apply bind_Ok in H. destruct H as (x_f & Hx & H).
  apply float_of_int_Ok in Hx. subst x_f.
  apply bind_Ok in H. destruct H as (t & Ht & H).
  apply div_float_int_Ok in Ht. destruct Ht as [_ ->].
  apply bind_Ok in H. destruct H as (s & Hs & H).
  apply bind_Ok in H. destruct H as (g & Hg & H).
  apply gain_Ok in Hg. destruct Hg as (a & Ha & ->).
  exists s, a. split; [exact Hs|]. split; [exact Ha|]. now injection H as <-.
Qed.

(** What a chunk is when [render_note] returns. *)
Lemma render_note_Ok (L : F64.libm) (bitRate : Z) (bps : float)
    (bar : F64.Bar) (note : F64.Note) (chunk : list Z) :
  F64.render_note L bitRate bps bar note = Ok chunk ->
  exists (secs : float) (fr : option float) (n : Z),
    F64.seconds bps bar note = Ok secs
    /\ F64.frequency L note = Ok fr
    /\ F64.numberOfFrames bitRate secs = Ok n
    /\ match fr with
       | None => chunk = repeat 128%Z (Z.to_nat n)
       | Some freq =>
           exists ff : Z,
             F64.fadingFrames bitRate n = Ok ff
             /\ mapM (fun x =>
                        frame <- F64.frame_at L bitRate freq
                                   (F64.dynamic note) n (ff / 2)
                                   ((ff + 1) / 2) x ;;
                        i <- F64.int_of_float frame ;;
                        F64.chr i)
                     (xrange n) = Ok chunk
       end.
Proof.
  unfold F64.render_note. intros H.
  apply bind_Ok in H. destruct H as (secs & Hsecs & H).
  apply bind_Ok in H. destruct H as (fr & Hfr & H).
  apply bind_Ok in H. destruct H as (n & Hn & H).
  exists secs, fr, n. repeat (split; [assumption|]).
  destruct fr as [freq|].
  - apply bind_Ok in H. destruct H as (ff & Hff & H).
    apply bind_Ok in H. destruct H as (xs & Hxs & H).
    apply xrange_Ok in Hxs. subst xs. exists ff. now split.
  - apply bind_Ok in H. destruct H as (xs & Hxs & H).
    apply xrange_Ok in Hxs. subst xs.
    rewrite rest_chunk_binary64 in H. now injection H as <-.
Qed.

Lemma render_note_length (L : F64.libm) (bitRate : Z) (bps : float)
    (bar : F64.Bar) (note : F64.Note) (chunk : list Z) :
  F64.render_note L bitRate bps bar note = Ok chunk ->
  exists n : Z,
    F64.int_of_float
      (F64.float_of_Z bitRate
       * (F64.float_of_Z (F64.divisor bar) * F64.duration note / bps)) = Ok n
    /\ length chunk = Z.to_nat n.
Proof.
  intros H. apply render_note_Ok in H.
  destruct H as (secs & fr & n & Hsecs & _ & Hn & H).
  apply seconds_Ok in Hsecs. destruct Hsecs as [_ ->].
  apply numberOfFrames_Ok in Hn. exists n. split; [exact Hn|].
  destruct fr as [freq|].
  - destruct H as (ff & _ & H). apply mapM_length in H.
    now rewrite H, xrange_length.
  - subst chunk. apply repeat_length.
Qed.

Lemma convertToWaveData_Ok (L : F64.libm) (self : F64.Composition)
    (bitRate : Z) (waveData : list (list Z)) :
  F64.convertToWaveData L self bitRate = Ok waveData ->
  Forall2 (fun bn chunk =>
             F64.render_note L bitRate (F64.bpm self / 60) (fst bn) (snd bn)
             = Ok chunk)
          (F64.score self) waveData.
Proof.
  unfold F64.convertToWaveData, F64.div_float_int.
  change (60 =? 0)%Z with false. cbv iota.
  change (F64.float_of_int 60) with (@Ok float 60). cbn [bind].
  intros H. apply bind_Ok in H. destruct H as (css & Hcss & H).
  injection H as <-. unfold F64.score.
  apply (Forall2_flat
           (fun bn chunk =>
              F64.render_note L bitRate (F64.bpm self / 60) (fst bn) (snd bn)
              = Ok chunk)).
  apply mapM_inv in Hcss.
  apply (Forall2_weaken _ _ _ _ (fun bar cs Hb => mapM_inv _ _ _ Hb) Hcss).
Qed.

(** C5 (as the code behaves).  When [convertToWaveData] returns, the chunk
    of every note, rest or pitched, has [int(bitRate*duration)] samples,
    with [duration = bar.divisor*note.duration/(bpm/60)] and all the
    operations in binary64: the product is truncated toward zero, it is not
    rounded. *)
Theorem frame_count_binary64 (L : F64.libm) (self : F64.Composition)
    (bitRate : Z) (waveData : list (list Z))
    (Hret : F64.convertToWaveData L self bitRate = Ok waveData) :
  Forall2 (fun bn chunk =>
             exists n : Z,
               F64.int_of_float
                 (F64.float_of_Z bitRate
                  * (F64.float_of_Z (F64.divisor (fst bn))
                     * F64.duration (snd bn) / (F64.bpm self / 60))) = Ok n
               /\ length chunk = Z.to_nat n)
          (F64.score self) waveData.
Proof.
  apply convertToWaveData_Ok in Hret.
  refine (Forall2_weaken _ _ _ _ _ Hret).
  intros [bar note] chunk H. exact (render_note_length _ _ _ _ _ _ H).
Qed.


(** C7 (as the code behaves).  A note without tone is rendered without
    [math.sin], loudness or envelope: its chunk is [numberOfFrames] samples
    of 128, with [numberOfFrames = int(bitRate*duration)] as for every
    note; the only failures are those of computing that count and of
    [xrange]. *)
Theorem rest_renders_as_silence_binary64 (L : F64.libm) (bitRate : Z)
    (bps : float) (bar : F64.Bar) (d : float) (o : Z) (s dyn : F64.pyval) :
  F64.render_note L bitRate bps bar (F64.mkNote d F64.PNone o s dyn)
  = (secs <- F64.seconds bps bar (F64.mkNote d F64.PNone o s dyn) ;;
     n <- F64.numberOfFrames bitRate secs ;;
     _ <- F64.xrange n ;;
     Ok (repeat 128%Z (Z.to_nat n))).
Proof.
  unfold F64.render_note.
  destruct (F64.seconds bps bar (F64.mkNote d F64.PNone o s dyn)) as [secs|e];
    [|reflexivity].
  cbn [bind F64.frequency F64.tone].
  destruct (F64.numberOfFrames bitRate secs) as [n|e]; [|reflexivity].
  cbn [bind]. unfold F64.xrange.
  destruct ((n <? - F64.maxint - 1) || (F64.maxint <? n))%Z; [reflexivity|].
  cbn [bind]. apply rest_chunk_binary64.
Qed.

(** C7, as worded, fails: the number of samples is not the frame count of
    the specification.  A rest of 3/32 in a 4/4 bar at 120 beats per minute
    and 44100 frames per second lasts 8268.75 frames; it is rendered as
    8268 samples, and [round] gives 8269. *)
Lemma rest_shorter_than_frameCount :
  F64.Bar_init [F64.rest (3 / 32)] 4 4
  = Ok (F64.mkBar 4 4 [F64.rest (3 / 32); F64.rest 0.90625])
  /\ F64.render_note F64.recorded 44100 (120 / 60)
       (F64.mkBar 4 4 [F64.rest (3 / 32); F64.rest 0.90625])
       (F64.rest (3 / 32))
     = Ok (repeat 128%Z (Z.to_nat 8268))
  /\ spec_frameCount 44100 4 (3 # 32) 120 = 8269%Z.
Proof. repeat split; vm_compute; reflexivity. Qed.

Lemma frequency_None (L : F64.libm) (note : F64.Note) :
  F64.frequency L note = Ok None -> F64.tone note = F64.PNone.
Proof.
  unfold F64.frequency. destruct (F64.tone note); try reflexivity; intros H;
    repeat (apply bind_Ok in H; destruct H as (? & _ & H)); discriminate.
Qed.

(** C4 (as the code behaves).  When a note with a tone is rendered, its
    chunk has [numberOfFrames] samples and the sample at index [x] is
    [int(math.sin(x/bitRate*frequency*TWO_PI) * m + 128)] in binary64, where
    [m] is [x/fadeInFrames*amplitude] in the fade-in,
    [(1-(x-(numberOfFrames-fadeOutFrames))/fadeOutFrames)*amplitude] in the
    fade-out and [amplitude] in between; [fadingFrames] is the smaller of
    [numberOfFrames] and [int(0.01*bitRate)], the halves are its floor and
    ceiling halves.  The value is truncated toward zero and lies in
    [0, 255]: nothing is clamped. *)
Theorem pitched_note_samples_binary64 (L : F64.libm) (bitRate : Z)
    (bps : float) (bar : F64.Bar) (note : F64.Note) (chunk : list Z)
    (Hpitched : F64.tone note <> F64.PNone)
    (Hret : F64.render_note L bitRate bps bar note = Ok chunk) :
  exists (freq : float) (n ff0 : Z),
    F64.frequency L note = Ok (Some freq)
    /\ F64.int_of_float
         (F64.float_of_Z bitRate
          * (F64.float_of_Z (F64.divisor bar) * F64.duration note / bps))
       = Ok n
    /\ F64.int_of_float (0.01 * F64.float_of_Z bitRate) = Ok ff0
    /\ length chunk = Z.to_nat n
    /\ forall x : Z, (0 <= x < n)%Z ->
       exists s a : float,
         F64.math_sin L (F64.float_of_Z x / F64.float_of_Z bitRate * freq
                         * F64.TWO_PI) = Ok s
         /\ F64.to_double (F64.dynamic note) = Ok a
         /\ F64.int_of_float
              (s * F64.envelope a n (Z.min n ff0 / 2)
                                ((Z.min n ff0 + 1) / 2) x + 128)
            = Ok (nth (Z.to_nat x) chunk 0%Z)
         /\ (0 <= nth (Z.to_nat x) chunk 0 <= 255)%Z.
Proof.
  destruct (render_note_length _ _ _ _ _ _ Hret) as (n' & Hn' & Hlen).
  apply render_note_Ok in Hret.
  destruct Hret as (secs & fr & n & Hsecs & Hfr & Hn & H).
  apply seconds_Ok in Hsecs. destruct Hsecs as [_ ->].
  apply numberOfFrames_Ok in Hn.
  assert (n' = n) by congruence. subst n'.
  destruct fr as [freq|]; [|now elim Hpitched; apply (frequency_None L)].
  destruct H as (ff & Hff & H).
  apply fadingFrames_Ok in Hff. destruct Hff as (ff0 & Hff0 & ->).
  exists freq, n, ff0. repeat (split; [assumption|]).
  intros x Hx. apply mapM_inv in H.
  pose proof (Forall2_at _ _ _ (Z.to_nat x) 0%Z 0%Z H) as Hx'.
  rewrite xrange_length, (xrange_nth_id n x Hx) in Hx'.
  specialize (Hx' ltac:(lia)). cbv beta in Hx'.
  apply bind_Ok in Hx'. destruct Hx' as (frame & Hframe & Hx').
  apply bind_Ok in Hx'. destruct Hx' as (i & Hi & Hchr).
  apply chr_Ok in Hchr. destruct Hchr as [Heq Hrange].
  apply frame_at_Ok in Hframe. destruct Hframe as (s & a & Hs & Ha & ->).
  exists s, a. rewrite Heq. repeat (split; [assumption|]).
  rewrite <- Heq. exact Hrange.
Qed.

(** ** No division by zero in the frame loop *)

Lemma bind_no_zde {A B : Type} (m : result A) (k : A -> result B) :
  m <> Raise ZeroDivisionError ->
  (forall a, m = Ok a -> k a <> Raise ZeroDivisionError) ->
  bind m k <> Raise ZeroDivisionError.
Proof.
  intros Hm Hk H. apply bind_Raise in H.
  destruct H as [H | (a & Ha & H)]; [exact (Hm H) | exact (Hk a Ha H)].
Qed.

Lemma mapM_no_zde {A B : Type} (f : A -> result B) (l : list A) :
  (forall a, In a l -> f a <> Raise ZeroDivisionError) ->
  mapM f l <> Raise ZeroDivisionError.
Proof.
  intros Hf H. apply mapM_Raise in H. destruct H as (a & Hin & H).
  exact (Hf a Hin H).
Qed.

Lemma float_of_int_no_zde (z : Z) :
  F64.float_of_int z <> Raise ZeroDivisionError.
Proof. intros H. apply float_of_int_Raise in H. discriminate. Qed.

Lemma int_of_float_no_zde (f : float) :
  F64.int_of_float f <> Raise ZeroDivisionError.
Proof. intros H. apply int_of_float_Raise in H. destruct H; discriminate. Qed.

Lemma to_double_no_zde (v : F64.pyval) :
  F64.to_double v <> Raise ZeroDivisionError.
Proof. intros H. apply to_double_Raise in H. destruct H; discriminate. Qed.

Lemma py_add_no_zde (a b : F64.pyval) :
  F64.py_add a b <> Raise ZeroDivisionError.
Proof. intros H. apply py_add_Raise in H. destruct H; discriminate. Qed.

Lemma chr_no_zde (i : Z) : F64.chr i <> Raise ZeroDivisionError.
Proof. intros H. apply chr_Raise in H. destruct H; discriminate. Qed.

Lemma xrange_no_zde (n : Z) : F64.xrange n <> Raise ZeroDivisionError.
Proof. intros H. apply xrange_Raise in H. discriminate. Qed.

Lemma div_float_int_no_zde (a : float) (b : Z) :
  b <> 0%Z -> F64.div_float_int a b <> Raise ZeroDivisionError.
Proof.
  intros Hb H. apply div_float_int_Raise in H.
  destruct H as [[_ H] | [H _]]; [exact (Hb H) | discriminate].
Qed.

Lemma gain_no_zde (amplitude : F64.pyval) (n ff x : Z) (x_f : float) :
  (0 <= x < n)%Z ->
  F64.gain amplitude n (ff / 2) ((ff + 1) / 2) x x_f
  <> Raise ZeroDivisionError.
Proof.
  intros Hx. unfold F64.gain.
  destruct (Z.ltb_spec x (ff / 2)) as [Hin|Hin].
  - apply bind_no_zde; [apply div_float_int_no_zde; lia|]. intros r _.
    apply bind_no_zde; [apply to_double_no_zde|]. intros a _. discriminate.
  - destruct (Z.geb_spec x (n - (ff + 1) / 2)) as [Hout|Hout].
    + apply bind_no_zde; [apply float_of_int_no_zde|]. intros k _.
      apply bind_no_zde; [apply div_float_int_no_zde; lia|]. intros r _.
      apply bind_no_zde; [apply to_double_no_zde|]. intros a _. discriminate.
    + apply to_double_no_zde.
Qed.

Lemma numberOfFrames_no_rate (secs : float) (n : Z) :
  F64.numberOfFrames 0 secs = Ok n -> n = 0%Z.
Proof.
  unfold F64.numberOfFrames.
  change (F64.float_of_int 0) with (@Ok float 0). cbn [bind].
  unfold F64.int_of_float. rewrite mul_spec.
  change (Prim2SF 0) with (S754_zero false).
  destruct (Prim2SF secs); simpl; congruence.
Qed.

Lemma frequency_no_zde (L : F64.libm) (note : F64.Note) :
  (forall x y, F64.math_pow L x y <> Raise ZeroDivisionError) ->
  F64.frequency L note <> Raise ZeroDivisionError.
Proof.
  intros Hpow. unfold F64.frequency, F64.div_float.
  rewrite twelve_nonzero.
  destruct (F64.tone note); try discriminate;
    (apply bind_no_zde; [apply py_add_no_zde|]; intros a _;
     apply bind_no_zde; [apply py_add_no_zde|]; intros b _;
     apply bind_no_zde; [apply to_double_no_zde|]; intros n _;
     cbn [bind];
     apply bind_no_zde; [apply Hpow|]; intros p _; discriminate).
Qed.

Lemma render_note_no_zde (L : F64.libm) (bitRate : Z) (bps : float)
    (bar : F64.Bar) (note : F64.Note) :
  (forall x y, F64.math_pow L x y <> Raise ZeroDivisionError) ->
  (forall x, F64.math_sin L x <> Raise ZeroDivisionError) ->
  (bps =? 0) = false ->
  F64.render_note L bitRate bps bar note <> Raise ZeroDivisionError.
Proof.
  intros Hpow Hsin Hbps. unfold F64.render_note.
  apply bind_no_zde.
  { unfold F64.seconds. apply bind_no_zde; [apply float_of_int_no_zde|].
    intros dv _. unfold F64.div_float. rewrite Hbps. discriminate. }
  intros secs _.
  apply bind_no_zde; [apply (frequency_no_zde L note Hpow)|]. intros fr _.
  apply bind_no_zde.
  { unfold F64.numberOfFrames.
    apply bind_no_zde; [apply float_of_int_no_zde|]. intros fb _.
    apply int_of_float_no_zde. }
  intros n Hn. destruct fr as [freq|].
  - apply bind_no_zde.
    { unfold F64.fadingFrames.
      apply bind_no_zde; [apply float_of_int_no_zde|]. intros fb _.
      apply bind_no_zde; [apply int_of_float_no_zde|]. intros ff _.
      discriminate. }
    intros ff _.
    apply bind_no_zde; [apply xrange_no_zde|]. intros xs Hxs.
    apply xrange_Ok in Hxs. subst xs.
    apply mapM_no_zde. intros x Hx. apply xrange_In in Hx.
    assert (Hrate : bitRate <> 0%Z).
    { intros ->. apply numberOfFrames_no_rate in Hn. lia. }
    apply bind_no_zde.
    { unfold F64.frame_at.
      apply bind_no_zde; [apply float_of_int_no_zde|]. intros x_f _.
      apply bind_no_zde; [apply (div_float_int_no_zde _ _ Hrate)|].
      intros t _.
      apply bind_no_zde; [apply Hsin|]. intros frame _.
      apply bind_no_zde; [apply (gain_no_zde _ _ _ _ _ Hx)|]. intros g _.
      discriminate. }
    intros frame _.
    apply bind_no_zde; [apply int_of_float_no_zde|]. intros i _.
    apply chr_no_zde.
  - apply bind_no_zde; [apply xrange_no_zde|]. intros xs _.
    apply mapM_no_zde. intros x _. apply chr_no_zde.
Qed.

(** C10 (as the code behaves).  Where [math.pow] and [math.sin] raise no
    [ZeroDivisionError] (they raise [ValueError] and [OverflowError]): the
    divisions by [fadeInFrames] and [fadeOutFrames] never divide by zero at
    a frame [0 <= x < numberOfFrames], whatever [fadingFrames] is, and
    [convertToWaveData] raises [ZeroDivisionError] only when
    [bps = bpm/60] is zero, at [bar.divisor*note.duration/bps]. *)
Theorem fade_divisions_safe_binary64 (L : F64.libm)
    (Hpow : forall x y, F64.math_pow L x y <> Raise ZeroDivisionError)
    (Hsin : forall x, F64.math_sin L x <> Raise ZeroDivisionError)
    (self : F64.Composition) (bitRate : Z) :
  (forall (amplitude : F64.pyval) (n ff x : Z) (x_f : float),
      (0 <= x < n)%Z ->
      F64.gain amplitude n (ff / 2) ((ff + 1) / 2) x x_f
      <> Raise ZeroDivisionError)
  /\ (F64.convertToWaveData L self bitRate = Raise ZeroDivisionError ->
      (F64.bpm self / 60 =? 0) = true).
Proof.
  split; [intros; now apply gain_no_zde|].
  unfold F64.convertToWaveData, F64.div_float_int.
  change (60 =? 0)%Z with false. cbv iota.
  change (F64.float_of_int 60) with (@Ok float 60). cbn [bind].
  intros H. destruct (F64.bpm self / 60 =? 0) eqn:Hbps; [reflexivity|].
  exfalso. revert H. apply bind_no_zde; [|discriminate].
  apply mapM_no_zde. intros bar _. apply mapM_no_zde. intros note _.
  now apply render_note_no_zde.
Qed.


Lemma lookup_no_zde (tbl : list (float * float)) (x : float) :
  F64.lookup tbl x <> Raise ZeroDivisionError.
Proof.
  induction tbl as [|[a v] tbl IH]; simpl; [discriminate|].
  destruct (a =? x); [discriminate | exact IH].
Qed.

Lemma recorded_pow_no_zde (x y : float) :
  F64.math_pow F64.recorded x y <> Raise ZeroDivisionError.
Proof.
  cbn [F64.math_pow F64.recorded]. destruct (x =? 2); [|discriminate].
  unfold F64.pow2.
  destruct (is_nan y); [discriminate|].
  destruct (y =? infinity); [discriminate|].
  destruct (1024 <=? y); [discriminate|].
  destruct (y <? -1075); [discriminate|].
  destruct (F64.int_of_float y) as [n|e]; [|discriminate].
  destruct (F64.float_of_Z n =? y); [discriminate|apply lookup_no_zde].
Qed.

Lemma recorded_sin_no_zde (x : float) :
  F64.math_sin F64.recorded x <> Raise ZeroDivisionError.
Proof.
  cbn [F64.math_sin F64.recorded].
  destruct (x =? 0); [discriminate|].
  destruct (is_nan x); [discriminate|].
  destruct (is_infinity x); [discriminate|apply lookup_no_zde].
Qed.

Lemma fade_divisions_safe_binary64_witness :
  F64.convertToWaveData F64.recorded
    (F64.mkComposition [F64.mkBar 4 4 [F64.rest 0.25; F64.rest 0.75]] 0)
    44100
  = Raise ZeroDivisionError
  /\ (0 / 60 =? 0) = true.
Proof.
  assert (H : F64.convertToWaveData F64.recorded
                (F64.mkComposition
                   [F64.mkBar 4 4 [F64.rest 0.25; F64.rest 0.75]] 0)
                44100
              = Raise ZeroDivisionError) by (vm_compute; reflexivity).
  split; [exact H|].
  exact (proj2 (fade_divisions_safe_binary64 F64.recorded
                  recorded_pow_no_zde recorded_sin_no_zde _ 44100) H).
Defined.

(** C10, as worded, fails: rendering is not total.  The composition that
    [main] builds gives its notes members of [Tone] and [Dynamic], and
    [convertToWaveData] raises [TypeError] at the first note, at
    [self.octave*12+self.tone], whatever the C library.  With numbers for
    the members, a note at octave 1024 raises the [OverflowError] of
    [math.pow]; and a rest whose duration is not a number is accepted by
    [Bar.__init__] and makes [int(bitRate*duration)] raise [ValueError]. *)
Lemma rendering_not_total :
  (forall L : F64.libm, F64.Main.waveData L = Raise TypeError)
  /\ F64.one_bar F64.recorded
       [F64.mkNote 1 (F64.Tone_value Tone.C) 1024 (F64.PInt 0)
                   (F64.Dynamic_value Dynamic.f)]
       4 4 (F64.PInt 120) 44100
     = Raise OverflowError
  /\ (forall L : F64.libm,
        F64.one_bar L [F64.rest nan] 4 4 (F64.PInt 120) 44100
        = Raise ValueError).
Proof.
  split; [intros L; vm_compute; reflexivity|].
  split; [vm_compute; reflexivity|].
  intros L; vm_compute; reflexivity.
Qed.

Lemma frame_count_binary64_witness :
  F64.one_bar F64.recorded [F64.rest 0.75] 4 4 (F64.PInt 50) 100
  = Ok [repeat 128%Z (Z.to_nat 359); repeat 128%Z (Z.to_nat 120)]
  /\ Forall2 (fun bn chunk =>
                exists n : Z,
                  F64.int_of_float
                    (F64.float_of_Z 100
                     * (F64.float_of_Z (F64.divisor (fst bn))
                        * F64.duration (snd bn) / (50 / 60))) = Ok n
                  /\ length chunk = Z.to_nat n)
             [(F64.mkBar 4 4 [F64.rest 0.75; F64.rest 0.25], F64.rest 0.75);
              (F64.mkBar 4 4 [F64.rest 0.75; F64.rest 0.25], F64.rest 0.25)]
             [repeat 128%Z (Z.to_nat 359); repeat 128%Z (Z.to_nat 120)].
Proof.
  split; [vm_compute; reflexivity|].
  exact (frame_count_binary64 F64.recorded
           (F64.mkComposition
              [F64.mkBar 4 4 [F64.rest 0.75; F64.rest 0.25]] 50)
           100 [repeat 128%Z (Z.to_nat 359); repeat 128%Z (Z.to_nat 120)]
           eq_refl).
Defined.

Lemma pitched_note_samples_binary64_witness :
  F64.render_note F64.recorded 352 (60 / 60)
    (F64.mkBar 4 4 [F64.mkNote (1 / 256) (F64.PInt 0) 0 (F64.PInt 0)
                               (F64.PInt 96); F64.rest 0.99609375])
    (F64.mkNote (1 / 256) (F64.PInt 0) 0 (F64.PInt 0) (F64.PInt 96))
  = Ok [128; 224; 128; 32; 127]%Z
  /\ exists (freq : float) (n ff0 : Z),
       F64.frequency F64.recorded
         (F64.mkNote (1 / 256) (F64.PInt 0) 0 (F64.PInt 0) (F64.PInt 96))
       = Ok (Some freq)
       /\ F64.int_of_float
            (F64.float_of_Z 352 * (F64.float_of_Z 4 * (1 / 256) / (60 / 60)))
          = Ok n
       /\ F64.int_of_float (0.01 * F64.float_of_Z 352) = Ok ff0
       /\ length [128; 224; 128; 32; 127]%Z = Z.to_nat n
       /\ forall x : Z, (0 <= x < n)%Z ->
          exists s a : float,
            F64.math_sin F64.recorded
              (F64.float_of_Z x / F64.float_of_Z 352 * freq * F64.TWO_PI)
            = Ok s
            /\ F64.to_double (F64.PInt 96) = Ok a
            /\ F64.int_of_float
                 (s * F64.envelope a n (Z.min n ff0 / 2)
                                   ((Z.min n ff0 + 1) / 2) x + 128)
               = Ok (nth (Z.to_nat x) [128; 224; 128; 32; 127]%Z 0%Z)
            /\ (0 <= nth (Z.to_nat x) [128; 224; 128; 32; 127] 0 <= 255)%Z.
Proof.
  assert (Hret : F64.render_note F64.recorded 352 (60 / 60)
                   (F64.mkBar 4 4
                      [F64.mkNote (1 / 256) (F64.PInt 0) 0 (F64.PInt 0)
                                  (F64.PInt 96); F64.rest 0.99609375])
                   (F64.mkNote (1 / 256) (F64.PInt 0) 0 (F64.PInt 0)
                               (F64.PInt 96))
                 = Ok [128; 224; 128; 32; 127]%Z) by (vm_compute; reflexivity).
  split; [exact Hret|].
  exact (pitched_note_samples_binary64 F64.recorded 352 (60 / 60)
           (F64.mkBar 4 4
              [F64.mkNote (1 / 256) (F64.PInt 0) 0 (F64.PInt 0) (F64.PInt 96);
               F64.rest 0.99609375])
           (F64.mkNote (1 / 256) (F64.PInt 0) 0 (F64.PInt 0) (F64.PInt 96))
           [128; 224; 128; 32; 127]%Z ltac:(discriminate) Hret).
Defined.

(** The samples of that note: [fadingFrames] is [int(3.52) = 3], so frame 1
    is past the fade-in and sounds at full loudness (224); at frame 4 the
    sine of ten half-turns is a little below zero in binary64 and the
    sample is 127. *)
Example pitched_chunk_352 :
  F64.render_note F64.recorded 352 (60 / 60)
    (F64.mkBar 4 4 [F64.mkNote (1 / 256) (F64.PInt 0) 0 (F64.PInt 0)
                               (F64.PInt 96); F64.rest 0.99609375])
    (F64.mkNote (1 / 256) (F64.PInt 0) 0 (F64.PInt 0) (F64.PInt 96))
  = Ok [128; 224; 128; 32; 127]%Z.
Proof. vm_compute. reflexivity. Qed.

(** Loudness beyond the range of a byte: [chr] raises, nothing is clamped. *)
Example loud_note_raises_binary64 :
  F64.one_bar F64.recorded
    [F64.mkNote (1 / 256) (F64.PInt 0) 0 (F64.PInt 0) (F64.PInt 200)]
    4 4 (F64.PInt 60) 352
  = Raise ValueError.
Proof. vm_compute. reflexivity. Qed.

(** A rest of 0.75 in a 4/4 bar at 50 beats per minute and 100 frames per
    second: [100*(4*0.75/(50.0/60))] is 359.99999999999994 and the chunk
    has 359 samples; the rest of 0.25 that fills the bar has 120. *)
Example rest_359 :
  100 * (4 * 0.75 / (50 / 60)) = 359.99999999999994
  /\ F64.one_bar F64.recorded [F64.rest 0.75] 4 4 (F64.PInt 50) 100
     = Ok [repeat 128%Z (Z.to_nat 359); repeat 128%Z (Z.to_nat 120)].
Proof. split; vm_compute; reflexivity. Qed.

(** The notes of [main] are what [Note.__init__] returns, and its bars are
    accepted as they are: sixteen sixteenths fill a 4/4 bar exactly. *)
Example Main_notes :
  F64.Note_init (F64.PFloat F64.Main.d) (F64.PTone Tone.A) (F64.PInt (-1))
                (F64.PInt 1) (F64.PDynamic Dynamic.f) = Ok F64.Main.a_s
  /\ F64.Note_rest (F64.PFloat F64.Main.d) = Ok F64.Main.r
  /\ F64.Bar_init F64.Main.notes1 4 4 = Ok (F64.mkBar 4 4 F64.Main.notes1)
  /\ F64.Bar_init F64.Main.notes4 4 4 = Ok (F64.mkBar 4 4 F64.Main.notes4).
Proof. repeat split; vm_compute; reflexivity. Qed.

(** Ten notes of 0.1 in a 1/1 bar: the running total ends at
    0.9999999999999999, no note overflows the bar, and a rest of
    1.1102230246251565e-16 is appended. *)
Example ten_tenths :
  F64.runningTotal
    (repeat (F64.rest 0.1) 10) 0
  = 0.9999999999999999
  /\ F64.Bar_init
       (repeat (F64.rest 0.1) 10) 1 1
     = Ok (F64.mkBar 1 1
             (repeat (F64.rest 0.1) 10
              ++ [F64.rest 1.1102230246251565e-16])).
Proof. split; vm_compute; reflexivity. Qed.

End Binary64.
